(** * imcconv: reading Fluidigm IMC containers, reshaping long-form records

    A shallow embedding of [imcconv/imcconv.py] ([_xyzc_to_arr],
    [_is_missing_values], [read_mcd], the summary part of [write_ometiff])
    and the properties of it that the specification states.

    Conventions of the embedding.
    - A float is held as its IEEE-754 bit pattern (a [Z]); a numpy array is a
      dtype together with nested lists of bit patterns.  [ieee_value] gives a
      bit pattern its exact value.
    - Python exceptions are values of [exn]; a function that may raise returns
      a [result].  A generator is the finite trace [gen] of what it yields,
      ended by exhaustion or by the exception that stops it.
    - Integers of numpy's [int64] wrap around ([wrap64]).
    - The product in [_is_missing_values] is taken exactly.  numpy evaluates
      it in floating point (binary32 or binary64 according to its promotion
      rules); both agree with the exact product as long as the grid has at
      most 2^24 cells.
    - Converting a NaN, an infinity or a value outside [int64] with
      [astype(int)] gives the smallest [int64], as on x86-64.
    - [struct.unpack("f", ...)] reads in the byte order of the machine,
      taken to be little-endian, and hands the pattern on unchanged (on
      some machines a signalling NaN comes out quiet; no statement rests
      on the payload of a NaN).
    - Memory is unbounded: no allocation fails. *)

From Stdlib Require Import ZArith QArith Qround Qpower String Ascii List Bool Lia.
From Stdlib Require Import Permutation Sorted.
From coqutil Require Import Byte Word.LittleEndianList.
Import ListNotations.
Local Open Scope Z_scope.

(** ** Exceptions and results *)

Inductive exn : Type :=
| ValueError (msg : string)
| NotImplementedError (msg : string)
| struct_error (msg : string).

Inductive result (A : Type) : Type :=
| Ok (a : A)
| Raise (e : exn).
Arguments Ok {A} a.
Arguments Raise {A} e.

Definition bind {A B : Type} (r : result A) (k : A -> result B) : result B :=
  match r with
  | Ok a => k a
  | Raise e => Raise e
  end.

Declare Scope result_scope.
Delimit Scope result_scope with result.
Notation "'let*' x ':=' r 'in' k" := (bind r (fun x => k))
  (at level 10, x pattern, r at level 100, k at level 200) : result_scope.
Local Open Scope result_scope.

Definition is_Ok {A : Type} (r : result A) : bool :=
  match r with Ok _ => true | Raise _ => false end.

(** ** IEEE-754 bit patterns *)

Module IEEE.

(** The value a bit pattern stands for. *)
Inductive fval : Type :=
| FNaN
| FInf (neg : bool)
| FFin (q : Q).

(** A format has [mbits] stored significand bits and [ebits] exponent
    bits. *)
Definition sign (mbits ebits b : Z) : bool := Z.testbit b (mbits + ebits).
Definition expo (mbits ebits b : Z) : Z :=
  Z.land (Z.shiftr b mbits) (Z.ones ebits).
Definition mant (mbits b : Z) : Z := Z.land b (Z.ones mbits).
Definition bias (ebits : Z) : Z := 2 ^ (ebits - 1) - 1.

Definition isnan (mbits ebits b : Z) : bool :=
  (expo mbits ebits b =? Z.ones ebits) && negb (mant mbits b =? 0).

Definition ieee_value (mbits ebits b : Z) : fval :=
  let e := expo mbits ebits b in
  let m := mant mbits b in
  if e =? Z.ones ebits then
    if m =? 0 then FInf (sign mbits ebits b) else FNaN
  else
    let m' := if e =? 0 then m else 2 ^ mbits + m in
    let e' := Z.max e 1 - bias ebits - mbits in
    FFin (inject_Z (if sign mbits ebits b then - m' else m') * (2 # 1) ^ e')%Q.

Definition f32_value : Z -> fval := ieee_value 23 8.
Definition f64_value : Z -> fval := ieee_value 52 11.
Definition f32_isnan : Z -> bool := isnan 23 8.
Definition f64_isnan : Z -> bool := isnan 52 11.

(** Widening a binary32 pattern to binary64 (exact; a NaN keeps its
    payload). *)
Definition f32_to_f64 (b : Z) : Z :=
  let s := if sign 23 8 b then 2 ^ 63 else 0 in
  let e := expo 23 8 b in
  let m := mant 23 b in
  if e =? 255 then s + 2047 * 2 ^ 52 + m * 2 ^ 29
  else if e =? 0 then
    if m =? 0 then s
    else let k := Z.log2 m in
         s + (k - 149 + 1023) * 2 ^ 52 + (m - 2 ^ k) * 2 ^ (52 - k)
  else s + (e - 127 + 1023) * 2 ^ 52 + m * 2 ^ 29.

(** IEEE comparison [a >= b]: false as soon as one side is a NaN. *)
Definition fge (a b : fval) : bool :=
  match a, b with
  | FNaN, _ | _, FNaN => false
  | FInf false, _ => true
  | _, FInf true => true
  | FInf true, _ => false
  | _, FInf false => false
  | FFin p, FFin q => Qle_bool q p
  end.

Definition fle (a b : fval) : bool := fge b a.

Definition fisnan (a : fval) : bool :=
  match a with FNaN => true | _ => false end.

(** Exact sum and product of values (no rounding). *)
Definition fadd (a b : fval) : fval :=
  match a, b with
  | FNaN, _ | _, FNaN => FNaN
  | FInf s, FInf t => if Bool.eqb s t then FInf s else FNaN
  | FInf s, _ | _, FInf s => FInf s
  | FFin p, FFin q => FFin (p + q)%Q
  end.

Definition Qsgn_neg (q : Q) : bool := negb (Qle_bool 0 q).

Definition fmul (a b : fval) : fval :=
  match a, b with
  | FNaN, _ | _, FNaN => FNaN
  | FInf s, FInf t => FInf (xorb s t)
  | FInf s, FFin q | FFin q, FInf s =>
      if Qeq_bool q 0 then FNaN else FInf (xorb s (Qsgn_neg q))
  | FFin p, FFin q => FFin (p * q)%Q
  end.

(** Python's [n != x] for an int [n] and a float [x]. *)
Definition int_ne (n : Z) (a : fval) : bool :=
  match a with
  | FFin q => negb (Qeq_bool (inject_Z n) q)
  | _ => true
  end.

(** Truncation toward zero. *)
Definition Qtrunc (q : Q) : Z :=
  if Qle_bool 0 q then Qfloor q else Qceiling q.

Definition INT64_MIN : Z := - 2 ^ 63.
Definition INT64_MAX : Z := 2 ^ 63 - 1.

Definition wrap64 (z : Z) : Z := (z + 2 ^ 63) mod 2 ^ 64 - 2 ^ 63.

(** [astype(int)] of one float. *)
Definition astype_int (a : fval) : Z :=
  match a with
  | FFin q =>
      let t := Qtrunc q in
      if (INT64_MIN <=? t) && (t <=? INT64_MAX) then t else INT64_MIN
  | _ => INT64_MIN
  end.

End IEEE.
Import IEEE.

(** ** numpy arrays *)

Inductive dtype : Type := float32 | float64.

Definition value_of (dt : dtype) : Z -> fval :=
  match dt with float32 => f32_value | float64 => f64_value end.

Definition isnan_of (dt : dtype) : Z -> bool :=
  match dt with float32 => f32_isnan | float64 => f64_isnan end.

(** A two-dimensional array of shape [(length a_rows, a_ncols)]; every row
    has [a_ncols] entries. *)
Record ndarray2 : Type := mk_ndarray2 {
  a_dtype : dtype;
  a_ncols : Z;
  a_rows : list (list Z)
}.

(** A three-dimensional array of shape [i_shape]. *)
Record ndarray3 : Type := mk_ndarray3 {
  i_dtype : dtype;
  i_shape : Z * Z * Z;
  i_data : list (list (list Z))
}.

Definition shape0 (arr : ndarray2) : Z := Z.of_nat (length (a_rows arr)).

(** [arr[:, c]] *)
Definition column (c : nat) (arr : ndarray2) : list Z :=
  map (fun r => nth c r 0) (a_rows arr).

(** One step of the [maximum] reduction: [(a >= b || isnan a) ? a : b]. *)
Definition np_maximum (val : Z -> fval) (a b : Z) : Z :=
  if fge (val a) (val b) || fisnan (val a) then a else b.

(** [x.max()] of a one-dimensional array. *)
Definition np_max (val : Z -> fval) (l : list Z) : result Z :=
  match l with
  | [] => Raise (ValueError
      "zero-size array to reduction operation maximum which has no identity")
  | x :: xs => Ok (fold_left (np_maximum val) xs x)
  end.

(** [k] consecutive pieces of [w] elements. *)
Fixpoint chunks {A : Type} (k w : nat) (l : list A) : list (list A) :=
  match k with
  | O => []
  | S k' => firstn w l :: chunks k' w (skipn w l)
  end.

(** The shape check of [reshape]: a negative entry stands for the one
    dimension numpy infers. *)
Definition fix_unknown_dimension (size : Z) (dims : list Z) : result (list Z) :=
  let s_known := fold_right Z.mul 1 (filter (fun d => 0 <=? d) dims) in
  match filter (fun d => d <? 0) dims with
  | [] =>
      if size =? s_known then Ok dims
      else Raise (ValueError "cannot reshape array")
  | [_] =>
      if (s_known =? 0) || negb (size mod s_known =? 0)
      then Raise (ValueError "cannot reshape array")
      else Ok (map (fun d => if d <? 0 then size / s_known else d) dims)
  | _ => Raise (ValueError "can only specify one unknown dimension")
  end.

(** [flat.reshape((d0, d1, d2))], row-major. *)
Definition reshape3 (dt : dtype) (flat : list Z) (d0 d1 d2 : Z)
  : result ndarray3 :=
  let* shape := fix_unknown_dimension (Z.of_nat (length flat)) [d0; d1; d2] in
  match shape with
  | [s0; s1; s2] =>
      Ok (mk_ndarray3 dt (s0, s1, s2)
            (map (chunks (Z.to_nat s1) (Z.to_nat s2))
                 (chunks (Z.to_nat s0) (Z.to_nat (s1 * s2)) flat)))
  | _ => Raise (ValueError "cannot reshape array")
  end.

(** [arr.astype(float64)], the promotion [vstack] applies. *)
Definition promote (arr : ndarray2) : list (list Z) :=
  match a_dtype arr with
  | float32 => map (map f32_to_f64) (a_rows arr)
  | float64 => a_rows arr
  end.

(** [np.ones((k, w)) * fill]: a [float64] array. *)
Definition ones_times (k w : Z) (fill : Z) : result (list (list Z)) :=
  if (k <? 0) || (w <? 0)
  then Raise (ValueError "negative dimensions are not allowed")
  else Ok (repeat (repeat fill (Z.to_nat w)) (Z.to_nat k)).

(** ** [_xyzc_to_arr]

    [fill_missing] is a Python float, held as its binary64 pattern. *)
Definition _xyzc_to_arr (arr : ndarray2) (fill_missing : option Z)
  : result ndarray3 :=
  let val := value_of (a_dtype arr) in
  let* mx := np_max val (column 0 arr) in
  let* my := np_max val (column 1 arr) in
  let xsz := wrap64 (astype_int (val mx) + 1) in
  let ysz := wrap64 (astype_int (val my) + 1) in
  let csz := a_ncols arr - 3 in
  let* arr' :=
    match fill_missing with
    | Some fill =>
        if negb (wrap64 (xsz * ysz) =? shape0 arr) then
          let* pad :=
            ones_times (wrap64 (wrap64 (xsz * ysz) - shape0 arr)) (3 + csz)
                       fill in
          Ok (mk_ndarray2 float64 (a_ncols arr) (promote arr ++ pad))
        else Ok arr
    | None => Ok arr
    end in
  reshape3 (a_dtype arr') (concat (map (skipn 3) (a_rows arr'))) ysz xsz csz.

(** ** [_is_missing_values] *)
Definition _is_missing_values (arr : ndarray2) : result bool :=
  let val := value_of (a_dtype arr) in
  let* mx := np_max val (column 0 arr) in
  let* my := np_max val (column 1 arr) in
  let nexpected :=
    fmul (fadd (val mx) (FFin 1)) (fadd (val my) (FFin 1)) in
  Ok (int_ne (shape0 arr) nexpected
      || existsb (existsb (isnan_of (a_dtype arr))) (a_rows arr)).

(** ** The container: a read-only memory map *)

(** [mm.seek(pos)] *)
Definition mm_seek (mm : list byte) (pos : Z) : result Z :=
  if (pos <? 0) || (Z.of_nat (length mm) <? pos)
  then Raise (ValueError "seek out of range")
  else Ok pos.

(** [mm.read(n)] at position [pos]; [None] is [mm.read()].  A negative or
    absent [n] reads to the end, and a read never goes past the end. *)
Definition mm_read (mm : list byte) (pos : Z) (n : option Z) : list byte :=
  let rest := skipn (Z.to_nat pos) mm in
  match n with
  | None => rest
  | Some n => if n <? 0 then rest else firstn (Z.to_nat n) rest
  end.

Definition byte_eqb (a b : byte) : bool := Byte.eqb a b.

Fixpoint is_prefix (p l : list byte) : bool :=
  match p, l with
  | [], _ => true
  | _ :: _, [] => false
  | a :: p', b :: l' => byte_eqb a b && is_prefix p' l'
  end.

(** [mm.rfind(sub)]: the offsets are tried from the last one downward. *)
Fixpoint rfind_upto (mm sub : list byte) (n : nat) : Z :=
  if is_prefix sub (skipn n mm) then Z.of_nat n
  else match n with
       | O => -1
       | S n' => rfind_upto mm sub n'
       end.

Definition rfind (mm sub : list byte) : Z := rfind_upto mm sub (length mm).

(** ** The metadata document

    The fields are those [read_mcd] reads from the parsed XML.  A field the
    code passes to [int] is held as that integer. *)
Record Acquisition : Type := mk_Acquisition {
  ID : string;
  SegmentDataFormat : string;
  ValueBytes : string;
  DataStartOffset : Z;
  DataEndOffset : Z
}.

Record AcquisitionChannel : Type := mk_AcquisitionChannel {
  AcquisitionID : string;
  ChannelName : string;
  ChannelLabel : option string;
  OrderNumber : Z
}.

Record MCDPublic : Type := mk_MCDPublic {
  Acquisitions : list Acquisition;
  AcquisitionChannels : list AcquisitionChannel
}.

(** ** [sorted(l, key=key)]: a stable sort *)
Section Sorted.
Context {A : Type} (key : A -> Z).

Fixpoint insert_by (x : A) (l : list A) : list A :=
  match l with
  | [] => [x]
  | y :: t => if key x <=? key y then x :: l else y :: insert_by x t
  end.

Definition sorted (l : list A) : list A := fold_right insert_by [] l.
End Sorted.

(** ** Generators *)
Inductive gen (A : Type) : Type :=
| Stop
| Yield (a : A) (rest : gen A)
| Throw (e : exn).
Arguments Stop {A}.
Arguments Yield {A} a rest.
Arguments Throw {A} e.

(** [for a in l: yield f(a)] *)
Fixpoint for_yield {A B : Type} (f : A -> result B) (l : list A) : gen B :=
  match l with
  | [] => Stop
  | a :: t =>
      match f a with
      | Ok b => Yield b (for_yield f t)
      | Raise e => Throw e
      end
  end.

(** ** [xr.DataArray] *)
Record DataArray : Type := mk_DataArray {
  da_values : ndarray3;
  da_name : string;
  da_dims : list string;
  da_x : list Z;
  da_y : list Z;
  da_c : list string;
  da_attrs : Acquisition
}.

Definition range (n : Z) : list Z := map Z.of_nat (seq 0 (Z.to_nat n)).

(** ** Decoding the records *)

(** [[struct.unpack("f", raw[i:i+4])[0] for i in range(0, len(raw), 4)]]
    as a [float32] array: each group of four bytes is one little-endian
    binary32 pattern; a last group of fewer than four bytes makes
    [struct.unpack] raise. *)
Fixpoint unpack_floats (raw : list byte) : result (list Z) :=
  match raw with
  | [] => Ok []
  | b0 :: b1 :: b2 :: b3 :: rest =>
      let* xs := unpack_floats rest in
      Ok (le_combine [b0; b1; b2; b3] :: xs)
  | _ => Raise (struct_error "unpack requires a buffer of 4 bytes")
  end.

(** [np.array(floats, dtype=np.float32).reshape((-1, w))] *)
Definition reshape_rows (floats : list Z) (w : Z) : result ndarray2 :=
  let* shape := fix_unknown_dimension (Z.of_nat (length floats)) [-1; w] in
  match shape with
  | [n; w'] =>
      Ok (mk_ndarray2 float32 w' (chunks (Z.to_nat n) (Z.to_nat w') floats))
  | _ => Raise (ValueError "cannot reshape array")
  end.

(** ** [read_mcd] *)

Definition not_in (s : string) (t : list string) : bool :=
  negb (existsb (String.eqb s) t).

(** The test of the comprehension of line 73-74: a record of acquisition
    [id_] that is not a coordinate channel. *)
Definition is_channel_of (id_ : string) (ch : AcquisitionChannel) : bool :=
  String.eqb (AcquisitionID ch) id_
  && not_in (ChannelName ch) ["X"; "Y"; "Z"]%string.

(** The channels of acquisition [id_], in column order. *)
Definition channels_of (root : MCDPublic) (id_ : string)
  : list AcquisitionChannel :=
  sorted OrderNumber (filter (is_channel_of id_) (AcquisitionChannels root)).

Definition channel_name (c : AcquisitionChannel) : string :=
  match ChannelLabel c with
  | Some label => (ChannelName c ++ "_" ++ label)%string
  | None => ChannelName c
  end.

Definition unsupported_msg : string :=
  "Expected float32 data in 'SegmentDataFormat' tag.".

Definition missing_msg : string :=
  "Image data is missing values. Try specifying 'fill_missing'.".

Definition no_footer_msg (path : string) : string :=
  ("'" ++ path ++
   "' does not contain MCDPublic XML footer (try different encoding?).")%string.

Section ReadMcd.
(** What the code takes from its libraries: [str.encode(encoding)] and
    [bytes.decode(encoding)] for the chosen encoding,
    [xmltodict.parse(xml, force_list=...)["MCDPublic"]] read into
    [MCDPublic], and [Path(path).stem]. *)
Variable encode : string -> list byte.
Variable decode : list byte -> result string.
Variable parse : string -> result MCDPublic.
Variable stem : string -> string.

(** Lines 59-61: the offset of the footer. *)
Definition locate_footer (path : string) (mm : list byte) : result Z :=
  let offset := rfind mm (encode "<MCDPublic") in
  if offset =? -1 then Raise (ValueError (no_footer_msg path))
  else Ok offset.

(** Lines 59-67: the parsed footer. *)
Definition read_footer (path : string) (mm : list byte)
  : result MCDPublic :=
  let* offset := locate_footer path mm in
  let* pos := mm_seek mm offset in
  let* xml := decode (mm_read mm pos None) in
  parse xml.

(** Lines 80-85: the records of one acquisition. *)
Definition read_records (mm : list byte) (acq : Acquisition) (w : Z)
  : result ndarray2 :=
  let* pos := mm_seek mm (DataStartOffset acq) in
  let raw :=
    mm_read mm pos (Some (DataEndOffset acq - DataStartOffset acq)) in
  let* floats := unpack_floats raw in
  reshape_rows floats w.

(** The body of the loop over the acquisitions (lines 70-99). *)
Definition read_acquisition (path : string) (fill_missing : option Z)
    (mm : list byte) (root : MCDPublic) (acq : Acquisition)
  : result DataArray :=
  let id_ := ID acq in
  let channels := channels_of root id_ in
  if negb (String.eqb (SegmentDataFormat acq) "Float")
     || negb (String.eqb (ValueBytes acq) "4")
  then Raise (NotImplementedError unsupported_msg)
  else
    let* arr := read_records mm acq (Z.of_nat (length channels) + 3) in
    let* missing :=
      match fill_missing with
      | None => _is_missing_values arr
      | Some _ => Ok false
      end in
    if missing then Raise (ValueError missing_msg)
    else
      let* img := _xyzc_to_arr arr fill_missing in
      let '(s0, s1, _) := i_shape img in
      Ok (mk_DataArray img (stem path ++ "_" ++ id_)%string
            ["y"; "x"; "c"]%string (range s1) (range s0)
            (map channel_name channels) acq).

Definition read_mcd (path : string) (fill_missing : option Z)
    (mm : list byte) : gen DataArray :=
  match mm with
  | [] => Throw (ValueError "cannot mmap an empty file")
  | _ =>
      match read_footer path mm with
      | Raise e => Throw e
      | Ok root =>
          for_yield (read_acquisition path fill_missing mm root)
                    (Acquisitions root)
      end
  end.
End ReadMcd.

(** ** The summary of [write_ometiff] *)

(** [s.split(sep)] for a separator of one character. *)
Fixpoint split_on (sep : ascii) (s : string) : list string :=
  match s with
  | EmptyString => [EmptyString]
  | String c s' =>
      if Ascii.eqb c sep then EmptyString :: split_on sep s'
      else match split_on sep s' with
           | [] => [String c EmptyString]
           | h :: t => String c h :: t
           end
  end.

(** One step of the [minimum] reduction, and [x.min()]. *)
Definition np_minimum (val : Z -> fval) (a b : Z) : Z :=
  if fle (val a) (val b) || fisnan (val a) then a else b.

Definition np_min (val : Z -> fval) (l : list Z) : result Z :=
  match l with
  | [] => Raise (ValueError
      "zero-size array to reduction operation minimum which has no identity")
  | x :: xs => Ok (fold_left (np_minimum val) xs x)
  end.

Record summary_row : Type := mk_summary_row {
  Page : Z;
  Channel : string;
  Label : string;
  MinValue : Z;
  MaxValue : Z
}.

(** The values of [imarr.transpose("c", "y", "x")[page]]. *)
Definition channel_values (img : ndarray3) (page : nat) : list Z :=
  concat (map (map (fun cell => nth page cell 0)) (i_data img)).

(** The body of the loop of lines 148-150. *)
Definition summary_row_of (imarr : DataArray) (page : nat) (name : string)
  : result summary_row :=
  match split_on "_" name with
  | [channel; label] =>
      let val := value_of (i_dtype (da_values imarr)) in
      let vals := channel_values (da_values imarr) page in
      let* mn := np_min val vals in
      let* mx := np_max val vals in
      Ok (mk_summary_row (Z.of_nat page) channel label mn mx)
  | [] | [_] =>
      Raise (ValueError "not enough values to unpack (expected 2, got 1)")
  | _ => Raise (ValueError "too many values to unpack (expected 2)")
  end.

Fixpoint summary_rows (imarr : DataArray) (page : nat) (names : list string)
  : result (list summary_row) :=
  match names with
  | [] => Ok []
  | name :: rest =>
      let* row := summary_row_of imarr page name in
      let* rows := summary_rows imarr (S page) rest in
      Ok (row :: rows)
  end.

(** The rows of the summary (lines 147-150), one per channel. *)
Definition write_ometiff_summary (imarr : DataArray)
  : result (list summary_row) :=
  summary_rows imarr 0 (da_c imarr).

(** * Vocabulary of the statements *)

(** ** Floats that hold integers *)

(** [is_int v n]: the float value [v] is the integer [n]. *)
Definition is_int (v : fval) (n : Z) : Prop :=
  match v with
  | FFin q => (q == inject_Z n)%Q
  | _ => False
  end.

(** [holds_ints val col ns]: the floats of [col] are the integers [ns]. *)
Definition holds_ints (val : Z -> fval) (col : list Z) (ns : list Z) : Prop :=
  Forall2 (fun b n => is_int (val b) n) col ns.

(** [is_max m ns]: [m] is the largest element of [ns]. *)
Definition is_max (m : Z) (ns : list Z) : Prop :=
  In m ns /\ Forall (fun n => n <= m) ns.

(** An array as [read_mcd] builds them: at least the three coordinate
    columns, and rows of the declared width. *)
Definition well_shaped (arr : ndarray2) : Prop :=
  3 <= a_ncols arr /\
  Forall (fun r => length r = Z.to_nat (a_ncols arr)) (a_rows arr) /\
  shape0 arr <= INT64_MAX.

(** The coordinate columns hold non-negative integers, the largest being
    [maxX] and [maxY]. *)
Definition grid_extent (arr : ndarray2) (maxX maxY : Z) : Prop :=
  exists xs ys,
    holds_ints (value_of (a_dtype arr)) (column 0 arr) xs /\
    holds_ints (value_of (a_dtype arr)) (column 1 arr) ys /\
    is_max maxX xs /\ is_max maxY ys /\ 0 <= maxX /\ 0 <= maxY.

(** The channel values of the rows, in input order. *)
Definition cells_of (rows : list (list Z)) : list (list Z) :=
  map (skipn 3) rows.

Definition has_nan (arr : ndarray2) : bool :=
  existsb (existsb (isnan_of (a_dtype arr))) (a_rows arr).

(** ** Records and grids *)

(** The bytes [mm[start:stop]]. *)
Definition slice (mm : list byte) (start stop : Z) : list byte :=
  firstn (Z.to_nat (stop - start)) (skipn (Z.to_nat start) mm).

(** The little-endian binary32 patterns of [4 * k] bytes. *)
Definition floats_of (k : nat) (raw : list byte) : list Z :=
  map le_combine (chunks k 4 raw).

(** The acquisition declares 4-byte floats. *)
Definition supported (acq : Acquisition) : bool :=
  String.eqb (SegmentDataFormat acq) "Float" && String.eqb (ValueBytes acq) "4".

(** The record width of an acquisition. *)
Definition record_width (root : MCDPublic) (acq : Acquisition) : Z :=
  Z.of_nat (length (channels_of root (ID acq))) + 3.

(** The channel vector of line [y], column [x]. *)
Definition cell (img : ndarray3) (y x : nat) : list Z :=
  nth x (nth y (i_data img) []) [].

(** ** The round trip *)

(** The encoder of the round trip, after the specification's words
    (sections 6 and 8): the raw layout is [[x, y, z, c1..cN]] repeated per
    row, each value a little-endian binary32, the rows in row-major order
    over (y, x). *)
Module Encoder.

(** The binary32 pattern of an integer [0 <= n < 2^24], where binary32 is
    exact. *)
Definition f32_of_int (n : Z) : Z :=
  if n =? 0 then 0
  else let k := Z.log2 n in
       (k + 127) * 2 ^ 23 + (n - 2 ^ k) * 2 ^ (23 - k).

Definition pack_f (b : Z) : list byte := le_split 4 b.

Definition encode_rows (rows : list (list Z)) : list byte :=
  flat_map (flat_map pack_f) rows.

(** The records of one line of the grid, from column [x] on. *)
Fixpoint line_rows (z y x : Z) (line : list (list Z)) : list (list Z) :=
  match line with
  | [] => []
  | c :: line' =>
      (f32_of_int x :: f32_of_int y :: z :: c) :: line_rows z y (x + 1) line'
  end.

(** The records of the lines of the grid, from line [y] on. *)
Fixpoint grid_rows_from (z y : Z) (grid : list (list (list Z)))
  : list (list Z) :=
  match grid with
  | [] => []
  | line :: grid' => line_rows z y 0 line ++ grid_rows_from z (y + 1) grid'
  end.

Definition grid_rows (z : Z) (grid : list (list (list Z))) : list (list Z) :=
  grid_rows_from z 0 grid.

Definition encode_grid (z : Z) (grid : list (list (list Z))) : list byte :=
  encode_rows (grid_rows z grid).

End Encoder.
Import Encoder.







(** ** The channels of an acquisition *)



(** [sub] occurs in [mm] at offset [i]. *)
Definition occurs_at (sub mm : list byte) (i : nat) : Prop :=
  exists pre post, mm = pre ++ sub ++ post /\ length pre = i.

Fixpoint count_char (c : ascii) (s : string) : nat :=
  match s with
  | EmptyString => O
  | String a s' => (if Ascii.eqb a c then 1 else 0) + count_char c s'
  end.

(** [sep.join(l)] *)
Fixpoint join (sep : ascii) (l : list string) : string :=
  match l with
  | [] => EmptyString
  | x :: rest =>
      match rest with
      | [] => x
      | _ :: _ => (x ++ String sep (join sep rest))%string
      end
  end.

(** * Test data *)

(** Test data: the binary32 patterns of 0.0, 1.0, 2.0, 10.0, 20.0, 30.0,
    40.0 and of a NaN; the binary64 pattern of -1.0. *)
Definition f0 : Z := 0.
Definition f1 : Z := 1065353216.
Definition f2 : Z := 1073741824.
Definition f10 : Z := 1092616192.
Definition f20 : Z := 1101004800.
Definition f30 : Z := 1106247680.
Definition f40 : Z := 1109393408.
Definition fnan : Z := 2143289344.
Definition d_minus1 : Z := 13830554455654793216.



(** A 2 x 1 stream and the same rows in the other order. *)
Definition rows_xy : list (list Z) := [[f0; f0; f0; f10]; [f1; f0; f0; f20]].
Definition rows_yx : list (list Z) := [[f1; f0; f0; f20]; [f0; f0; f0; f10]].

(** Three rows on a 1 x 1 grid. *)
Definition arr_over : ndarray2 :=
  mk_ndarray2 float32 4
    [[f0; f0; f0; f10]; [f0; f0; f0; f20]; [f0; f0; f0; f30]].

Ltac prove_holds_ints :=
  unfold holds_ints; repeat constructor; vm_compute; reflexivity.

Ltac prove_is_max :=
  split; [simpl; tauto | repeat constructor; lia].

Ltac prove_well_shaped :=
  unfold well_shaped; repeat split;
  [ simpl; lia | repeat constructor | vm_compute; discriminate ].


(** An acquisition "1" with the coordinate channels and one channel. *)
Definition channels_demo : list AcquisitionChannel :=
  [ mk_AcquisitionChannel "1" "X" (Some "X") 0;
    mk_AcquisitionChannel "1" "Y" (Some "Y") 1;
    mk_AcquisitionChannel "1" "Z" (Some "Z") 2;
    mk_AcquisitionChannel "1" "Ir191" (Some "DNA") 3 ]%string.

(** A 2 x 2 grid of one channel, and its container. *)
Definition grid_2x2 : list (list (list Z)) :=
  [[[f10]; [f20]]; [[f30]; [f40]]].

Definition pre_2x2 : list byte := map byte.of_Z [77; 67].

Definition acq_2x2 : Acquisition := mk_Acquisition "1" "Float" "4" 2 66.

Definition root_2x2 : MCDPublic := mk_MCDPublic [acq_2x2] channels_demo.

(** The records (0, 0), (1, 0), (1, 1) of a 2 x 2 grid: one is missing. *)
Definition rows_short : list (list Z) :=
  [[f0; f0; f0; f10]; [f1; f0; f0; f20]; [f1; f1; f0; f40]].

Definition arr_short : ndarray2 := mk_ndarray2 float32 4 rows_short.




(** The channel table of the specification's example: order numbers
    3, 1, 2 for the names C, A, B; and the same records in another
    order. *)
Definition root_cab : MCDPublic :=
  mk_MCDPublic []
    [ mk_AcquisitionChannel "1" "C" None 3;
      mk_AcquisitionChannel "1" "X" (Some "X") 0;
      mk_AcquisitionChannel "1" "A" (Some "a") 1;
      mk_AcquisitionChannel "2" "D" None 1;
      mk_AcquisitionChannel "1" "B" None 2 ]%string.

Definition root_bca : MCDPublic :=
  mk_MCDPublic []
    [ mk_AcquisitionChannel "1" "X" (Some "X") 0;
      mk_AcquisitionChannel "1" "C" None 3;
      mk_AcquisitionChannel "1" "A" (Some "a") 1;
      mk_AcquisitionChannel "1" "B" None 2;
      mk_AcquisitionChannel "2" "D" None 1 ]%string.

Definition mm_2x2 : list byte := pre_2x2 ++ encode_grid f0 grid_2x2.

Definition da_2x2 : DataArray :=
  mk_DataArray (mk_ndarray3 float32 (2, 2, 1) grid_2x2) "a.mcd_1"
    ["y"; "x"; "c"]%string [0; 1] [0; 1] ["Ir191_DNA"%string] acq_2x2.


(** Two encodings of the strings of code points below 256. *)
Definition encode_latin_1 (s : string) : list byte := list_byte_of_string s.

Definition encode_utf_16_le (s : string) : list byte :=
  flat_map (fun b => [b; Byte.x00]) (list_byte_of_string s).

Fixpoint decode_utf_16_le (l : list byte) : result string :=
  match l with
  | [] => Ok EmptyString
  | lo :: hi :: rest =>
      if Byte.eqb hi Byte.x00 then
        let* s := decode_utf_16_le rest in
        Ok (String (ascii_of_byte lo) s)
      else Raise (ValueError "code point above 255")
  | _ => Raise (ValueError "truncated data")
  end.

(** A container: three bytes, then a footer in UTF-16-LE. *)
Definition mm_footer : list byte :=
  map byte.of_Z [1; 2; 3] ++ encode_utf_16_le "<MCDPublic/>".

(** A raster of one pixel and two channels, the second without label. *)
Definition da_unlabelled : DataArray :=
  mk_DataArray (mk_ndarray3 float32 (1, 1, 2) [[[f10; f20]]]) "a.mcd_1"
    ["y"; "x"; "c"]%string [0] [0] ["Ir191_DNA"; "Ar80"]%string acq_2x2.

(** * Further definitions *)

(** ** What a generator yields *)



(** ** The name of the summary file (line 146 of [write_ometiff]) *)

Fixpoint mem_char (c : ascii) (chars : string) : bool :=
  match chars with
  | EmptyString => false
  | String a chars' => Ascii.eqb c a || mem_char c chars'
  end.

(** [s.rstrip(chars)]: the trailing characters that occur in [chars] are
    removed. *)
Fixpoint rstrip (chars s : string) : string :=
  match s with
  | EmptyString => EmptyString
  | String c s' =>
      match rstrip chars s' with
      | EmptyString =>
          if mem_char c chars then EmptyString else String c EmptyString
      | r => String c r
      end
  end.

(** [s.lstrip(chars)] *)
Fixpoint lstrip (chars s : string) : string :=
  match s with
  | EmptyString => EmptyString
  | String c s' => if mem_char c chars then lstrip chars s' else s
  end.

(** [s.endswith(c)] for one character. *)
Fixpoint endswith (c : ascii) (s : string) : bool :=
  match s with
  | EmptyString => false
  | String a EmptyString => Ascii.eqb a c
  | String _ s' => endswith c s'
  end.

(** [PurePath.suffixes], from the final component [name] of the path:
    [[] if name.endswith('.') else
     ['.' + s for s in name.lstrip('.').split('.')[1:]]]. *)
Definition suffixes (name : string) : list string :=
  if endswith "." name then []
  else map (fun s => String "." s) (tl (split_on "." (lstrip "." name))).

(** [''.join(l)] *)
Definition join_empty (l : list string) : string :=
  fold_right append EmptyString l.

(** [outpath.name.rstrip(''.join(outpath.suffixes)) + "_summary.txt"] *)
Definition summaryfname (name : string) : string :=
  (rstrip (join_empty (suffixes name)) name ++ "_summary.txt")%string.

(** The characters [lstrip] removes. *)
Fixpoint leading (chars s : string) : string :=
  match s with
  | EmptyString => EmptyString
  | String c s' =>
      if mem_char c chars then String c (leading chars s') else EmptyString
  end.

(** The part of [name] before its suffixes. *)
Definition before_suffixes (name : string) : string :=
  if endswith "." name then name
  else (leading "." name
        ++ hd EmptyString (split_on "." (lstrip "." name)))%string.

(** Every character of [s] occurs in [chars]. *)
Fixpoint all_in (chars s : string) : bool :=
  match s with
  | EmptyString => true
  | String c s' => mem_char c chars && all_in chars s'
  end.

(** ** Values compared *)

(** The same value: the same infinity, two NaNs, or equal numbers. *)
Definition fval_eq (a b : fval) : Prop :=
  match a, b with
  | FNaN, FNaN => True
  | FInf s, FInf t => s = t
  | FFin p, FFin q => (p == q)%Q
  | _, _ => False
  end.




(** The [float64] pattern [p] stands for the value that [v] stands for in
    an array of type [dt]. *)
Definition same_value (dt : dtype) (p v : Z) : Prop :=
  fval_eq (f64_value p) (value_of dt v).


(** The rows are in row-major order over (y, x) for a grid of width [w]:
    row [i] has x = [i mod w] and y = [i / w]. *)
Definition row_major (arr : ndarray2) (w : Z) : Prop :=
  forall i : nat, (i < length (a_rows arr))%nat ->
    is_int (value_of (a_dtype arr) (nth 0 (nth i (a_rows arr) []) 0))
           (Z.of_nat i mod w) /\
    is_int (value_of (a_dtype arr) (nth 1 (nth i (a_rows arr) []) 0))
           (Z.of_nat i / w).

(** The four rows of a 2 x 2 grid, in row-major order. *)
Definition arr_2x2 : ndarray2 :=
  mk_ndarray2 float32 4
    [[f0; f0; f0; f10]; [f1; f0; f0; f20];
     [f0; f1; f0; f30]; [f1; f1; f0; f40]].

(** Three rows of a 2 x 2 grid, with one channel and with none. *)
Definition arr_short0 : ndarray2 :=
  mk_ndarray2 float32 3 [[f0; f0; f0]; [f1; f0; f0]; [f1; f1; f0]].






(** The four rows of a 2 x 2 grid, the last with a NaN channel value. *)
Definition rows_nan : list (list Z) :=
  [[f0; f0; f0; f10]; [f1; f0; f0; f20]; [f0; f1; f0; f30];
   [f1; f1; f0; fnan]].

Definition arr_nan : ndarray2 := mk_ndarray2 float32 4 rows_nan.

Definition mm_nan : list byte := encode_rows rows_nan.

Definition acq_nan : Acquisition := mk_Acquisition "1" "Float" "4" 0 64.

Definition root_nan : MCDPublic := mk_MCDPublic [acq_nan] channels_demo.

(** * Properties *)

(** ** The model on examples *)

Example f32_one : f32_value 1065353216 = FFin (8388608 * (2 # 1) ^ (-23))%Q.
Proof. reflexivity. Qed.

Example f32_value_examples :
  astype_int (f32_value 1065353216) = 1 /\
  astype_int (f32_value 1073741824) = 2 /\
  astype_int (f32_value 3225419776) = -3 /\
  astype_int (f32_value 1069547520) = 1 /\
  astype_int (f32_value 1258291200) = 8388608 /\
  f32_value 2139095040 = FInf false /\
  f32_value 4286578688 = FInf true /\
  f32_value 2143289344 = FNaN /\
  astype_int (f32_value 1) = 0.
Proof. vm_compute. repeat split. Qed.

Example f32_to_f64_examples :
  f32_to_f64 1065353216 = 4607182418800017408 /\
  f32_to_f64 3225419776 = 13837309855095848960 /\
  f32_to_f64 1 = 3936146074321813504 /\
  f32_to_f64 2139095040 = 9218868437227405312 /\
  f32_to_f64 0 = 0.
Proof. vm_compute. repeat split. Qed.

Example xyzc_2x2 :
  _xyzc_to_arr (mk_ndarray2 float32 4
     [[f0; f0; f0; f10]; [f1; f0; f0; f20];
      [f0; f1; f0; f30]; [f1; f1; f0; f40]]) None
  = Ok (mk_ndarray3 float32 (2, 2, 1) [[[f10]; [f20]]; [[f30]; [f40]]]).
Proof. vm_compute. reflexivity. Qed.

Example xyzc_2x2_short :
  _xyzc_to_arr (mk_ndarray2 float32 4
     [[f0; f0; f0; f10]; [f1; f0; f0; f20]; [f1; f1; f0; f40]])
     (Some d_minus1)
  = Ok (mk_ndarray3 float64 (2, 2, 1)
     [[[f32_to_f64 f10]; [f32_to_f64 f20]];
      [[f32_to_f64 f40]; [d_minus1]]]).
Proof. vm_compute. reflexivity. Qed.

Example missing_2x2_short :
  _is_missing_values (mk_ndarray2 float32 4
     [[f0; f0; f0; f10]; [f1; f0; f0; f20]; [f1; f1; f0; f40]])
  = Ok true.
Proof. vm_compute. reflexivity. Qed.

(** ** Lists cut into pieces *)

Lemma length_chunks {A : Type} (k w : nat) (l : list A) :
  length (chunks k w l) = k.
Proof. revert l; induction k; simpl; intros; [reflexivity | now rewrite IHk]. Qed.

Lemma firstn_app_exact {A : Type} (l1 l2 : list A) :
  firstn (length l1) (l1 ++ l2) = l1.
Proof.
  rewrite firstn_app, Nat.sub_diag, firstn_all. simpl. apply app_nil_r.
Qed.

Lemma skipn_app_exact {A : Type} (l1 l2 : list A) :
  skipn (length l1) (l1 ++ l2) = l2.
Proof.
  rewrite skipn_app, Nat.sub_diag, skipn_all. reflexivity.
Qed.

Lemma firstn_app_len {A : Type} (n : nat) (l1 l2 : list A) :
  length l1 = n -> firstn n (l1 ++ l2) = l1.
Proof. intros <-. apply firstn_app_exact. Qed.

Lemma skipn_app_len {A : Type} (n : nat) (l1 l2 : list A) :
  length l1 = n -> skipn n (l1 ++ l2) = l2.
Proof. intros <-. apply skipn_app_exact. Qed.

Lemma chunks_concat {A : Type} (w : nat) (cells : list (list A)) :
  Forall (fun c => length c = w) cells ->
  chunks (length cells) w (concat cells) = cells.
Proof.
  induction 1 as [|c cells Hc _ IH]; simpl; [reflexivity|].
  subst w. now rewrite firstn_app_exact, skipn_app_exact, IH.
Qed.

Lemma chunks_concat_n {A : Type} (k w : nat) (cells : list (list A)) :
  length cells = k ->
  Forall (fun c => length c = w) cells ->
  chunks k w (concat cells) = cells.
Proof. intros <-. apply chunks_concat. Qed.

Lemma length_concat_uniform {A : Type} (w : nat) (cells : list (list A)) :
  Forall (fun c => length c = w) cells ->
  length (concat cells) = (length cells * w)%nat.
Proof.
  induction 1 as [|c cells Hc _ IH]; simpl; [reflexivity|].
  rewrite length_app, IH, Hc. reflexivity.
Qed.

(** Reshaping the concatenated cells to [(h, w, c)] cuts the list of cells
    into [h] rows of [w] cells. *)
Lemma reshape_cells {A : Type} (h w c : nat) (cells : list (list A)) :
  Forall (fun cell => length cell = c) cells ->
  length cells = (h * w)%nat ->
  map (chunks w c) (chunks h (w * c) (concat cells)) = chunks h w cells.
Proof.
  revert cells. induction h as [|h IH]; intros cells Hc Hlen; [reflexivity|].
  simpl in Hlen. simpl chunks. simpl map.
  rewrite <- (firstn_skipn w cells) at 1 2.
  assert (Hf : length (firstn w cells) = w) by (rewrite length_firstn; lia).
  pose proof Hc as Hc'. rewrite <- (firstn_skipn w cells) in Hc'.
  apply Forall_app in Hc'. destruct Hc' as [Hcf Hcs].
  rewrite concat_app.
  assert (Hl : length (concat (firstn w cells)) = (w * c)%nat)
    by (rewrite (length_concat_uniform c) by assumption; now rewrite Hf).
  rewrite (firstn_app_len _ _ _ Hl), (skipn_app_len _ _ _ Hl).
  f_equal.
  - now apply chunks_concat_n.
  - apply IH; [assumption|]. rewrite length_skipn. lia.
Qed.

Lemma nth_chunks {A : Type} (h w : nat) (l : list A) (y x : nat) (d : A) :
  (y < h)%nat -> (x < w)%nat -> length l = (h * w)%nat ->
  nth x (nth y (chunks h w l) []) d = nth (y * w + x) l d.
Proof.
  revert l y. induction h as [|h IH]; intros l y Hy Hx Hlen; [lia|].
  simpl chunks. destruct y as [|y]; simpl nth.
  - rewrite <- (firstn_skipn w l) at 2.
    rewrite app_nth1; [reflexivity|]. rewrite length_firstn. simpl in *. lia.
  - rewrite IH; [| lia | assumption | rewrite length_skipn; simpl in *; lia].
    rewrite <- (firstn_skipn w l) at 2.
    rewrite app_nth2; rewrite length_firstn; simpl in Hlen.
    + f_equal. lia.
    + lia.
Qed.

(** ** Floats that hold integers *)


Lemma Qtrunc_int (q : Q) (n : Z) : (q == inject_Z n)%Q -> Qtrunc q = n.
Proof.
  intros H. unfold Qtrunc.
  destruct (Qle_bool 0 q).
  - rewrite (Qfloor_comp _ _ H). apply Qfloor_Z.
  - rewrite (Qceiling_comp _ _ H). apply Qceiling_Z.
Qed.

Lemma astype_int_is_int (v : fval) (n : Z) :
  is_int v n -> INT64_MIN <= n <= INT64_MAX -> astype_int v = n.
Proof.
  destruct v as [| |q]; simpl; try contradiction.
  intros H Hr. rewrite (Qtrunc_int _ _ H).
  destruct (Z.leb_spec INT64_MIN n), (Z.leb_spec n INT64_MAX);
    simpl; try reflexivity; lia.
Qed.

Lemma wrap64_small (z : Z) : INT64_MIN <= z <= INT64_MAX -> wrap64 z = z.
Proof.
  unfold wrap64, INT64_MIN, INT64_MAX. intros H.
  rewrite Z.mod_small; lia.
Qed.

Lemma np_maximum_int (val : Z -> fval) (a b n m : Z) :
  is_int (val a) n -> is_int (val b) m ->
  is_int (val (np_maximum val a b)) (Z.max n m).
Proof.
  unfold np_maximum. intros Ha Hb.
  destruct (val a) as [| |p] eqn:Ea; simpl in Ha; try contradiction.
  destruct (val b) as [| |q] eqn:Eb; simpl in Hb; try contradiction.
  simpl. rewrite orb_false_r.
  destruct (Qle_bool q p) eqn:E.
  - rewrite Ea. simpl. apply Qle_bool_iff in E.
    rewrite Ha, Hb in E. rewrite <- Zle_Qle in E.
    rewrite Z.max_l by assumption. exact Ha.
  - rewrite Eb. simpl.
    assert (Hlt : n <= m).
    { destruct (Z.le_gt_cases n m) as [|Hgt]; [assumption|].
      assert (Qle_bool q p = true); [|congruence].
      apply Qle_bool_iff. rewrite Ha, Hb. rewrite <- Zle_Qle. lia. }
    rewrite Z.max_r by assumption. exact Hb.
Qed.

Lemma fold_maximum_int (val : Z -> fval) (xs ns : list Z) :
  holds_ints val xs ns ->
  forall x n, is_int (val x) n ->
  is_int (val (fold_left (np_maximum val) xs x)) (fold_left Z.max ns n).
Proof.
  induction 1 as [|b m xs ns Hb _ IH]; intros x n Hx; simpl; [exact Hx|].
  apply IH. now apply np_maximum_int.
Qed.

Lemma fold_max_ge (ns : list Z) (n : Z) : n <= fold_left Z.max ns n.
Proof.
  revert n. induction ns as [|m ns IH]; intros n; simpl; [lia|].
  specialize (IH (Z.max n m)). lia.
Qed.

Lemma fold_max_is_max (ns : list Z) (n : Z) :
  is_max (fold_left Z.max ns n) (n :: ns).
Proof.
  revert n. induction ns as [|m ns IH]; intros n; simpl.
  - split; [now left | constructor; [lia | constructor]].
  - destruct (IH (Z.max n m)) as [Hin Hall].
    inversion Hall as [|? ? Hhd Htl]; subst.
    split.
    + destruct Hin as [Hin|Hin]; [|now right; right].
      rewrite <- Hin.
      destruct (Z.max_spec n m) as [[_ E]|[_ E]]; rewrite E;
        [right; left | left]; reflexivity.
    + constructor; [lia|]. constructor; [lia | exact Htl].
Qed.

Lemma is_max_unique (m m' : Z) (ns : list Z) :
  is_max m ns -> is_max m' ns -> m = m'.
Proof.
  intros [Hin Hall] [Hin' Hall'].
  rewrite Forall_forall in Hall, Hall'.
  specialize (Hall _ Hin'). specialize (Hall' _ Hin). lia.
Qed.

(** The maximum of a column of integers is its largest integer. *)
Lemma np_max_int (val : Z -> fval) (col ns : list Z) (m : Z) :
  holds_ints val col ns -> is_max m ns ->
  exists b, np_max val col = Ok b /\ is_int (val b) m.
Proof.
  intros H Hm. destruct H as [|b n col ns Hb Hrest].
  - destruct Hm as [[] _].
  - eexists. split; [reflexivity|].
    rewrite (is_max_unique _ _ _ Hm (fold_max_is_max ns n)).
    now apply fold_maximum_int.
Qed.

(** ** The reshape of [_xyzc_to_arr] *)

Lemma fix_unknown_dimension_known (size d0 d1 d2 : Z) :
  0 <= d0 -> 0 <= d1 -> 0 <= d2 ->
  fix_unknown_dimension size [d0; d1; d2] =
  if size =? d0 * d1 * d2 then Ok [d0; d1; d2]
  else Raise (ValueError "cannot reshape array").
Proof.
  intros H0 H1 H2. unfold fix_unknown_dimension. simpl.
  destruct (Z.ltb_spec d0 0); [lia|].
  destruct (Z.ltb_spec d1 0); [lia|].
  destruct (Z.ltb_spec d2 0); [lia|].
  destruct (Z.leb_spec 0 d0); [|lia].
  destruct (Z.leb_spec 0 d1); [|lia].
  destruct (Z.leb_spec 0 d2); [|lia].
  simpl. replace (d0 * (d1 * (d2 * 1))) with (d0 * d1 * d2) by ring.
  reflexivity.
Qed.

(** Reshaping [h * w] cells of [c] values to [(h, w, c)] gives [h] rows of
    [w] cells, in the order of the cells. *)
Lemma reshape3_cells (dt : dtype) (cells : list (list Z)) (h w c : Z) :
  0 <= h -> 0 <= w -> 0 <= c ->
  Forall (fun cell => length cell = Z.to_nat c) cells ->
  Z.of_nat (length cells) = h * w ->
  reshape3 dt (concat cells) h w c =
  Ok (mk_ndarray3 dt (h, w, c) (chunks (Z.to_nat h) (Z.to_nat w) cells)).
Proof.
  intros Hh Hw Hc Hcells Hlen. unfold reshape3.
  rewrite fix_unknown_dimension_known by assumption.
  rewrite (length_concat_uniform _ _ Hcells).
  replace (Z.of_nat (length cells * Z.to_nat c)) with (h * w * c)
    by (rewrite Nat2Z.inj_mul, Hlen, Z2Nat.id by assumption; reflexivity).
  rewrite Z.eqb_refl. simpl. f_equal. f_equal.
  rewrite Z2Nat.inj_mul by assumption.
  apply reshape_cells; [assumption|].
  rewrite <- Z2Nat.inj_mul by assumption. rewrite <- Hlen.
  now rewrite Nat2Z.id.
Qed.

(** Reshaping fails when the cells do not fill the shape. *)
Lemma reshape3_mismatch (dt : dtype) (flat : list Z) (h w c : Z) :
  0 <= h -> 0 <= w -> 0 <= c ->
  Z.of_nat (length flat) <> h * w * c ->
  reshape3 dt flat h w c = Raise (ValueError "cannot reshape array").
Proof.
  intros Hh Hw Hc Hne. unfold reshape3.
  rewrite fix_unknown_dimension_known by assumption.
  destruct (Z.eqb_spec (Z.of_nat (length flat)) (h * w * c)); [contradiction|].
  reflexivity.
Qed.

Lemma cells_of_length (w : Z) (rows : list (list Z)) :
  3 <= w ->
  Forall (fun r => length r = Z.to_nat w) rows ->
  Forall (fun cell => length cell = Z.to_nat (w - 3)) (cells_of rows).
Proof.
  intros Hw H. unfold cells_of. apply Forall_map.
  eapply Forall_impl; [|exact H]. cbv beta. intros r Hr.
  rewrite length_skipn, Hr. lia.
Qed.

Lemma grid_extent_sizes (arr : ndarray2) (maxX maxY : Z) :
  grid_extent arr maxX maxY ->
  (maxX + 1) * (maxY + 1) <= INT64_MAX ->
  exists mx my,
    np_max (value_of (a_dtype arr)) (column 0 arr) = Ok mx /\
    np_max (value_of (a_dtype arr)) (column 1 arr) = Ok my /\
    is_int (value_of (a_dtype arr) mx) maxX /\
    is_int (value_of (a_dtype arr) my) maxY /\
    wrap64 (astype_int (value_of (a_dtype arr) mx) + 1) = maxX + 1 /\
    wrap64 (astype_int (value_of (a_dtype arr) my) + 1) = maxY + 1.
Proof.
  intros (xs & ys & Hxs & Hys & Hmx & Hmy & Hx0 & Hy0) Hfit.
  destruct (np_max_int _ _ _ _ Hxs Hmx) as (mx & Ex & Ix).
  destruct (np_max_int _ _ _ _ Hys Hmy) as (my & Ey & Iy).
  exists mx, my.
  assert (Hbx : maxX + 1 <= INT64_MAX) by nia.
  assert (Hby : maxY + 1 <= INT64_MAX) by nia.
  unfold INT64_MAX in *.
  rewrite (astype_int_is_int _ _ Ix), (astype_int_is_int _ _ Iy)
    by (unfold INT64_MIN, INT64_MAX; lia).
  rewrite !wrap64_small by (unfold INT64_MIN, INT64_MAX; lia).
  repeat split; assumption.
Qed.

Lemma skipn_repeat {A : Type} (a : A) (k n : nat) :
  skipn k (repeat a (k + n)) = repeat a n.
Proof. induction k; simpl; [reflexivity | exact IHk]. Qed.

Lemma cells_of_app (r1 r2 : list (list Z)) :
  cells_of (r1 ++ r2) = cells_of r1 ++ cells_of r2.
Proof. unfold cells_of. apply map_app. Qed.

Lemma cells_of_repeat (fill : Z) (c : Z) (k : nat) :
  0 <= c ->
  cells_of (repeat (repeat fill (Z.to_nat (3 + c))) k) =
  repeat (repeat fill (Z.to_nat c)) k.
Proof.
  intros Hc. unfold cells_of. rewrite map_repeat. f_equal.
  replace (Z.to_nat (3 + c)) with (3 + Z.to_nat c)%nat by lia.
  apply skipn_repeat.
Qed.

Lemma promote_length (arr : ndarray2) :
  length (promote arr) = length (a_rows arr).
Proof. unfold promote. destruct (a_dtype arr); [apply length_map | reflexivity]. Qed.

Lemma promote_well_shaped (arr : ndarray2) (w : nat) :
  Forall (fun r => length r = w) (a_rows arr) ->
  Forall (fun r => length r = w) (promote arr).
Proof.
  unfold promote. destruct (a_dtype arr); [|trivial].
  intros H. apply Forall_map. eapply Forall_impl; [|exact H].
  cbv beta. intros r Hr. now rewrite length_map.
Qed.

(** When the rows are as many as the grid has cells, the raster is the
    list of the rows' channel values cut into [maxY + 1] lines of
    [maxX + 1] cells: the cell of line [y], column [x] is the one of
    input row [y * (maxX + 1) + x]. *)
Lemma xyzc_full (arr : ndarray2) (fill_missing : option Z) (maxX maxY : Z) :
  well_shaped arr -> grid_extent arr maxX maxY ->
  shape0 arr = (maxX + 1) * (maxY + 1) ->
  _xyzc_to_arr arr fill_missing =
  Ok (mk_ndarray3 (a_dtype arr) (maxY + 1, maxX + 1, a_ncols arr - 3)
        (chunks (Z.to_nat (maxY + 1)) (Z.to_nat (maxX + 1))
                (cells_of (a_rows arr)))).
Proof.
  intros (Hw & Hrows & Hfit) Hext Hn.
  pose proof Hext as (xs & ys & _ & _ & _ & _ & Hx0 & Hy0).
  destruct (grid_extent_sizes arr maxX maxY Hext) as
    (mx & my & Ex & Ey & _ & _ & Sx & Sy); [lia|].
  unfold _xyzc_to_arr. rewrite Ex, Ey. cbn [bind]. rewrite Sx, Sy.
  rewrite wrap64_small by (unfold INT64_MIN; lia).
  replace ((maxX + 1) * (maxY + 1) =? shape0 arr) with true
    by (symmetry; apply Z.eqb_eq; lia).
  assert (Hcells : reshape3 (a_dtype arr)
            (concat (map (skipn 3) (a_rows arr)))
            (maxY + 1) (maxX + 1) (a_ncols arr - 3) =
          Ok (mk_ndarray3 (a_dtype arr) (maxY + 1, maxX + 1, a_ncols arr - 3)
                (chunks (Z.to_nat (maxY + 1)) (Z.to_nat (maxX + 1))
                        (cells_of (a_rows arr))))).
  { apply reshape3_cells; try lia.
    - now apply cells_of_length.
    - unfold cells_of. rewrite length_map. unfold shape0 in Hn. lia. }
  destruct fill_missing; cbn [negb bind]; exact Hcells.
Qed.

(** With a fill value and fewer rows than cells, the rows are widened to
    [float64], rows of the fill value are appended and the whole is cut
    into lines as before. *)
Lemma xyzc_padded (arr : ndarray2) (fill : Z) (maxX maxY : Z) :
  well_shaped arr -> grid_extent arr maxX maxY ->
  shape0 arr < (maxX + 1) * (maxY + 1) <= INT64_MAX ->
  _xyzc_to_arr arr (Some fill) =
  Ok (mk_ndarray3 float64 (maxY + 1, maxX + 1, a_ncols arr - 3)
        (chunks (Z.to_nat (maxY + 1)) (Z.to_nat (maxX + 1))
           (cells_of (promote arr) ++
            repeat (repeat fill (Z.to_nat (a_ncols arr - 3)))
                   (Z.to_nat ((maxX + 1) * (maxY + 1) - shape0 arr))))).
Proof.
  intros (Hw & Hrows & Hfit) Hext [Hn HE].
  pose proof Hext as (xs & ys & _ & _ & _ & _ & Hx0 & Hy0).
  destruct (grid_extent_sizes arr maxX maxY Hext HE) as
    (mx & my & Ex & Ey & _ & _ & Sx & Sy).
  assert (H0 : 0 <= shape0 arr) by (unfold shape0; lia).
  unfold _xyzc_to_arr. rewrite Ex, Ey. cbn [bind]. rewrite Sx, Sy.
  rewrite (wrap64_small ((maxX + 1) * (maxY + 1)))
    by (unfold INT64_MIN; lia).
  destruct (Z.eqb_spec ((maxX + 1) * (maxY + 1)) (shape0 arr)) as [E|_];
    [lia|]. cbn [negb].
  rewrite wrap64_small by (unfold INT64_MIN, INT64_MAX in *; lia).
  unfold ones_times.
  destruct (Z.ltb_spec ((maxX + 1) * (maxY + 1) - shape0 arr) 0); [lia|].
  destruct (Z.ltb_spec (3 + (a_ncols arr - 3)) 0); [lia|].
  cbn [orb bind a_rows a_dtype].
  fold (cells_of (promote arr ++
    repeat (repeat fill (Z.to_nat (3 + (a_ncols arr - 3))))
      (Z.to_nat ((maxX + 1) * (maxY + 1) - shape0 arr)))).
  rewrite cells_of_app, cells_of_repeat by lia.
  apply reshape3_cells; try lia.
  - apply Forall_app. split.
    + apply cells_of_length; [assumption|].
      now apply promote_well_shaped.
    + apply Forall_forall. intros c Hc. apply repeat_spec in Hc.
      subst c. apply repeat_length.
  - rewrite length_app, repeat_length. unfold cells_of.
    rewrite length_map, promote_length. unfold shape0 in *. lia.
Qed.

(** ** [_is_missing_values] *)



(** ** Decoding the records *)

Lemma length_slice (mm : list byte) (start stop : Z) :
  0 <= start <= stop -> stop <= Z.of_nat (length mm) ->
  Z.of_nat (length (slice mm start stop)) = stop - start.
Proof.
  intros H1 H2. unfold slice. rewrite length_firstn, length_skipn. lia.
Qed.

Lemma unpack_floats_whole (k : nat) (raw : list byte) :
  length raw = (4 * k)%nat ->
  unpack_floats raw = Ok (floats_of k raw).
Proof.
  revert raw. induction k as [|k IH]; intros raw Hlen.
  - destruct raw; [reflexivity | discriminate].
  - destruct raw as [|b0 [|b1 [|b2 [|b3 rest]]]]; simpl in Hlen; try lia.
    cbn [unpack_floats]. rewrite (IH rest) by lia. reflexivity.
Qed.

Lemma unpack_floats_short (k r : nat) (raw : list byte) :
  length raw = (4 * k + r)%nat -> (0 < r < 4)%nat ->
  unpack_floats raw =
  Raise (struct_error "unpack requires a buffer of 4 bytes").
Proof.
  revert raw. induction k as [|k IH]; intros raw Hlen Hr.
  - destruct raw as [|b0 [|b1 [|b2 [|b3 rest]]]]; simpl in Hlen;
      try lia; reflexivity.
  - destruct raw as [|b0 [|b1 [|b2 [|b3 rest]]]]; simpl in Hlen; try lia.
    cbn [unpack_floats]. rewrite (IH rest) by lia. reflexivity.
Qed.

Lemma length_floats_of (k : nat) (raw : list byte) :
  length (floats_of k raw) = k.
Proof. unfold floats_of. now rewrite length_map, length_chunks. Qed.

Lemma fix_unknown_dimension_rows (size w : Z) :
  0 < w ->
  fix_unknown_dimension size [-1; w] =
  if size mod w =? 0 then Ok [size / w; w]
  else Raise (ValueError "cannot reshape array").
Proof.
  intros Hw. unfold fix_unknown_dimension. simpl.
  destruct (Z.ltb_spec w 0); [lia|].
  destruct (Z.leb_spec 0 w); [|lia].
  simpl. rewrite Z.mul_1_r.
  destruct (Z.eqb_spec w 0); [lia|]. simpl.
  destruct (size mod w =? 0); reflexivity.
Qed.

Lemma reshape_rows_spec (floats : list Z) (w : Z) :
  0 < w ->
  reshape_rows floats w =
  if Z.of_nat (length floats) mod w =? 0
  then Ok (mk_ndarray2 float32 w
             (chunks (Z.to_nat (Z.of_nat (length floats) / w)) (Z.to_nat w)
                     floats))
  else Raise (ValueError "cannot reshape array").
Proof.
  intros Hw. unfold reshape_rows. rewrite fix_unknown_dimension_rows by assumption.
  destruct (Z.of_nat (length floats) mod w =? 0); reflexivity.
Qed.

Lemma mm_read_slice (mm : list byte) (start stop : Z) :
  0 <= start <= stop ->
  mm_read mm start (Some (stop - start)) = slice mm start stop.
Proof.
  intros H. unfold mm_read, slice.
  destruct (Z.ltb_spec (stop - start) 0); [lia | reflexivity].
Qed.

Lemma mm_seek_ok (mm : list byte) (pos : Z) :
  0 <= pos <= Z.of_nat (length mm) -> mm_seek mm pos = Ok pos.
Proof.
  intros H. unfold mm_seek.
  destruct (Z.ltb_spec pos 0); [lia|].
  destruct (Z.ltb_spec (Z.of_nat (length mm)) pos); [lia | reflexivity].
Qed.

(** The records of an acquisition whose byte range lies in the
    container. *)
Lemma read_records_spec (mm : list byte) (acq : Acquisition) (w : Z) :
  0 < w ->
  0 <= DataStartOffset acq <= DataEndOffset acq ->
  DataEndOffset acq <= Z.of_nat (length mm) ->
  let n := DataEndOffset acq - DataStartOffset acq in
  let raw := slice mm (DataStartOffset acq) (DataEndOffset acq) in
  read_records mm acq w =
  if n mod 4 =? 0 then
    if (n / 4) mod w =? 0 then
      Ok (mk_ndarray2 float32 w
            (chunks (Z.to_nat (n / 4 / w)) (Z.to_nat w)
                    (floats_of (Z.to_nat (n / 4)) raw)))
    else Raise (ValueError "cannot reshape array")
  else Raise (struct_error "unpack requires a buffer of 4 bytes").
Proof.
  intros Hw Hr Hend n raw. unfold read_records.
  rewrite mm_seek_ok by lia. cbn [bind].
  rewrite mm_read_slice by assumption. fold raw.
  assert (Hlen : Z.of_nat (length raw) = n) by (apply length_slice; lia).
  assert (Hn : 0 <= n) by lia.
  pose proof (Z.div_mod n 4 ltac:(lia)) as Hdm.
  pose proof (Z.mod_pos_bound n 4 ltac:(lia)) as Hmb.
  pose proof (Z.div_pos n 4 Hn ltac:(lia)) as Hdp.
  destruct (Z.eqb_spec (n mod 4) 0) as [E|E].
  - rewrite (unpack_floats_whole (Z.to_nat (n / 4))) by lia.
    cbn [bind]. rewrite reshape_rows_spec by assumption.
    rewrite length_floats_of, Z2Nat.id by assumption. reflexivity.
  - rewrite (unpack_floats_short (Z.to_nat (n / 4)) (Z.to_nat (n mod 4)))
      by lia.
    reflexivity.
Qed.


Lemma chunks_uniform {A : Type} (k w : nat) (l : list A) :
  length l = (k * w)%nat ->
  Forall (fun c => length c = w) (chunks k w l).
Proof.
  revert l. induction k as [|k IH]; intros l Hl; simpl; constructor.
  - rewrite length_firstn. simpl in Hl. lia.
  - apply IH. rewrite length_skipn. simpl in Hl. lia.
Qed.

Lemma concat_chunks {A : Type} (k w : nat) (l : list A) :
  length l = (k * w)%nat -> concat (chunks k w l) = l.
Proof.
  revert l. induction k as [|k IH]; intros l Hl; simpl.
  - destruct l; [reflexivity | discriminate].
  - rewrite IH by (rewrite length_skipn; simpl in Hl; lia).
    apply firstn_skipn.
Qed.






(** ** Reading one acquisition *)

Lemma read_records_shape (mm : list byte) (acq : Acquisition) (w : Z)
    (arr : ndarray2) :
  3 <= w -> read_records mm acq w = Ok arr ->
  a_dtype arr = float32 /\ a_ncols arr = w /\
  Forall (fun r => length r = Z.to_nat w) (a_rows arr).
Proof.
  intros Hw. unfold read_records.
  destruct (mm_seek mm (DataStartOffset acq)) as [pos|]; [|discriminate].
  cbn [bind].
  destruct (unpack_floats _) as [floats|]; [|discriminate].
  cbn [bind]. rewrite reshape_rows_spec by lia.
  destruct (Z.eqb_spec (Z.of_nat (length floats) mod w) 0) as [E|];
    [|discriminate].
  intros H. injection H as <-. cbn [a_dtype a_ncols a_rows].
  repeat split. apply chunks_uniform.
  pose proof (Z.div_mod (Z.of_nat (length floats)) w ltac:(lia)) as Hdm.
  assert (0 <= Z.of_nat (length floats) / w) by (apply Z.div_pos; lia).
  rewrite <- Z2Nat.inj_mul by lia.
  rewrite <- (Nat2Z.id (length floats)) at 1. f_equal. lia.
Qed.

Section Acquisition.
Variable stem : string -> string.
Variables (path : string) (mm : list byte) (root : MCDPublic).
Variable acq : Acquisition.


Hypothesis Hsupported : supported acq = true.
Variable arr : ndarray2.
Hypothesis Hrecords : read_records mm acq (record_width root acq) = Ok arr.


Lemma read_acquisition_reshaped (fill_missing : option Z) (img : ndarray3) :
  match fill_missing with
  | None => _is_missing_values arr = Ok false
  | Some _ => True
  end ->
  _xyzc_to_arr arr fill_missing = Ok img ->
  read_acquisition stem path fill_missing mm root acq =
  Ok (mk_DataArray img (stem path ++ "_" ++ ID acq)%string
        ["y"; "x"; "c"]%string
        (range (snd (fst (i_shape img)))) (range (fst (fst (i_shape img))))
        (map channel_name (channels_of root (ID acq))) acq).
Proof.
  unfold read_acquisition. intros Hm Himg.
  rewrite <- negb_andb. fold (supported acq). rewrite Hsupported.
  cbn [negb]. fold (record_width root acq). rewrite Hrecords.
  cbn [bind].
  assert (E : match fill_missing with
              | Some _ => Ok false
              | None => _is_missing_values arr
              end = Ok false) by (destruct fill_missing; auto).
  rewrite E. cbn [bind]. rewrite Himg. cbn [bind].
  destruct (i_shape img) as [[s0 s1] s2]. reflexivity.
Qed.

Lemma records_well_shaped :
  shape0 arr <= INT64_MAX -> well_shaped arr.
Proof.
  intros Hfit.
  assert (Hw : 3 <= record_width root acq) by (unfold record_width; lia).
  destruct (read_records_shape _ _ _ _ Hw Hrecords) as (_ & Hc & Hr).
  unfold well_shaped. rewrite Hc. repeat split; assumption.
Qed.
End Acquisition.

(** ** Row order, missing data and over-reported rows *)

(** C1: [_xyzc_to_arr] places the rows by their position in the input, not
    by their (x, y): the rows (x=0, y=0, 10) and (x=1, y=0, 20), complete
    and free of NaN in either order, give the raster [[10, 20]] in this
    order and [[20, 10]] in the other, where the cell of column 0 holds the
    value of the row whose x is 1. *)
Theorem xyzc_depends_on_row_order :
  Permutation rows_xy rows_yx /\
  _is_missing_values (mk_ndarray2 float32 4 rows_xy) = Ok false /\
  _is_missing_values (mk_ndarray2 float32 4 rows_yx) = Ok false /\
  _xyzc_to_arr (mk_ndarray2 float32 4 rows_xy) None =
    Ok (mk_ndarray3 float32 (1, 2, 1) [[[f10]; [f20]]]) /\
  _xyzc_to_arr (mk_ndarray2 float32 4 rows_yx) None =
    Ok (mk_ndarray3 float32 (1, 2, 1) [[[f20]; [f10]]]) /\
  _xyzc_to_arr (mk_ndarray2 float32 4 rows_xy) None <>
  _xyzc_to_arr (mk_ndarray2 float32 4 rows_yx) None.
Proof.
  split; [apply perm_swap|].
  repeat split; try (vm_compute; reflexivity).
  vm_compute. discriminate.
Qed.

(** C9: with a fill value, a stream on a grid that has more rows than the
    grid has cells makes [_xyzc_to_arr] raise: the number of rows to
    append is negative. *)
Theorem xyzc_over_reported_raises (arr : ndarray2) (fill : Z)
    (maxX maxY : Z) :
  well_shaped arr -> grid_extent arr maxX maxY ->
  (maxX + 1) * (maxY + 1) < shape0 arr ->
  _xyzc_to_arr arr (Some fill) =
  Raise (ValueError "negative dimensions are not allowed").
Proof.
  intros (Hw & Hrows & Hfit) Hext Hn.
  pose proof Hext as (xs & ys & _ & _ & _ & _ & Hx0 & Hy0).
  destruct (grid_extent_sizes arr maxX maxY Hext) as
    (mx & my & Ex & Ey & _ & _ & Sx & Sy); [lia|].
  unfold _xyzc_to_arr. rewrite Ex, Ey. cbn [bind]. rewrite Sx, Sy.
  rewrite (wrap64_small ((maxX + 1) * (maxY + 1)))
    by (unfold INT64_MIN; lia).
  destruct (Z.eqb_spec ((maxX + 1) * (maxY + 1)) (shape0 arr)) as [E|_];
    [lia|]. cbn [negb].
  rewrite wrap64_small by (unfold INT64_MIN, INT64_MAX in *; lia).
  unfold ones_times.
  destruct (Z.ltb_spec ((maxX + 1) * (maxY + 1) - shape0 arr) 0); [|lia].
  reflexivity.
Qed.

Lemma arr_over_extent : grid_extent arr_over 0 0.
Proof.
  exists [0; 0; 0], [0; 0; 0].
  repeat split; try prove_holds_ints; try (simpl; tauto); try lia;
    repeat constructor; lia.
Qed.

Lemma xyzc_over_reported_raises_witness :
  well_shaped arr_over /\ grid_extent arr_over 0 0 /\
  (0 + 1) * (0 + 1) < shape0 arr_over /\
  _xyzc_to_arr arr_over (Some d_minus1) =
  Raise (ValueError "negative dimensions are not allowed").
Proof.
  assert (H1 : well_shaped arr_over) by prove_well_shaped.
  assert (H3 : (0 + 1) * (0 + 1) < shape0 arr_over) by (vm_compute; reflexivity).
  exact (conj H1 (conj arr_over_extent (conj H3
    (xyzc_over_reported_raises arr_over d_minus1 0 0 H1 arr_over_extent H3)))).
Defined.



(** ** The round trip *)

Example f32_of_int_examples :
  map f32_of_int [0; 1; 2; 10; 20; 30; 40; 16777215] =
  [f0; f1; f2; f10; f20; f30; f40; 1266679807].
Proof. vm_compute. reflexivity. Qed.

Lemma pow2_ratio (n j : Z) :
  0 <= j -> (inject_Z (n * 2 ^ j) * (2 # 1) ^ (- j) == inject_Z n)%Q.
Proof.
  intros Hj. rewrite Qpower_opp.
  change (2 # 1)%Q with (inject_Z 2).
  rewrite <- Zpower_Qpower by assumption.
  rewrite inject_Z_mult.
  assert (Hnz : ~ (inject_Z (2 ^ j) == 0)%Q).
  { change 0%Q with (inject_Z 0). rewrite inject_Z_injective.
    pose proof (Z.pow_pos_nonneg 2 j ltac:(lia) Hj). lia. }
  field. exact Hnz.
Qed.








Lemma length_packed (l : list Z) :
  length (flat_map pack_f l) = (4 * length l)%nat.
Proof.
  induction l as [|b l IH]; [reflexivity|].
  cbn [flat_map]. rewrite length_app, IH.
  unfold pack_f. rewrite length_le_split. simpl. lia.
Qed.
























Lemma arr_short_extent : grid_extent arr_short 1 1.
Proof.
  exists [0; 1; 1], [0; 0; 1].
  split; [prove_holds_ints|]. split; [prove_holds_ints|].
  split; [prove_is_max|]. split; [prove_is_max|]. lia.
Qed.


(** ** The channels of an acquisition *)

Section SortedFacts.
Context {A : Type} (key : A -> Z).

Lemma insert_by_perm (x : A) (l : list A) :
  Permutation (insert_by key x l) (x :: l).
Proof.
  induction l as [|y t IH]; simpl; [reflexivity|].
  destruct (key x <=? key y); [reflexivity|].
  apply perm_trans with (y :: x :: t); [now constructor | apply perm_swap].
Qed.

Lemma sorted_perm (l : list A) : Permutation (sorted key l) l.
Proof.
  induction l as [|x l IH]; simpl; [reflexivity|].
  apply perm_trans with (x :: sorted key l);
    [apply insert_by_perm | now constructor].
Qed.




End SortedFacts.


Lemma not_in_xyz (s : string) :
  not_in s ["X"; "Y"; "Z"]%string = true <->
  s <> "X"%string /\ s <> "Y"%string /\ s <> "Z"%string.
Proof.
  unfold not_in. cbn [existsb].
  destruct (String.eqb_spec s "X") as [Ex|Ex],
    (String.eqb_spec s "Y") as [Ey|Ey],
    (String.eqb_spec s "Z") as [Ez|Ez]; simpl; split; intros Hs;
    try discriminate; try tauto; try (repeat split; assumption).
Qed.

Lemma is_channel_of_spec (id_ : string) (ch : AcquisitionChannel) :
  is_channel_of id_ ch = true <->
  AcquisitionID ch = id_ /\
  ChannelName ch <> "X"%string /\ ChannelName ch <> "Y"%string /\
  ChannelName ch <> "Z"%string.
Proof.
  unfold is_channel_of. rewrite andb_true_iff, String.eqb_eq, not_in_xyz.
  reflexivity.
Qed.

Lemma channels_of_perm (root : MCDPublic) (id_ : string) :
  Permutation (channels_of root id_)
              (filter (is_channel_of id_) (AcquisitionChannels root)).
Proof. apply sorted_perm. Qed.

Lemma in_channels_of (root : MCDPublic) (id_ : string)
    (ch : AcquisitionChannel) :
  In ch (channels_of root id_) <->
  In ch (AcquisitionChannels root) /\ is_channel_of id_ ch = true.
Proof.
  rewrite <- filter_In. split; apply Permutation_in;
    [|apply Permutation_sym]; apply channels_of_perm.
Qed.

Lemma read_acquisition_names (stem : string -> string) (path : string)
    (fill_missing : option Z) (mm : list byte) (root : MCDPublic)
    (acq : Acquisition) (da : DataArray) :
  read_acquisition stem path fill_missing mm root acq = Ok da ->
  da_c da = map channel_name (channels_of root (ID acq)) /\ da_attrs da = acq.
Proof.
  unfold read_acquisition.
  destruct (negb _ || negb _); [discriminate|].
  destruct (read_records _ _ _) as [arr|]; [|discriminate]. cbn [bind].
  destruct (match fill_missing with Some _ => _ | None => _ end)
    as [[|]|]; try discriminate. cbn [bind].
  destruct (_xyzc_to_arr arr fill_missing) as [img|]; [|discriminate].
  cbn [bind]. destruct (i_shape img) as [[s0 s1] s2].
  intros H. injection H as <-. split; reflexivity.
Qed.


Example channels_cab :
  map channel_name (channels_of root_cab "1") = ["A_a"; "B"; "C"]%string /\
  map channel_name (channels_of root_bca "1") = ["A_a"; "B"; "C"]%string.
Proof. split; reflexivity. Qed.



Lemma channel_name_not_coordinate (ch : AcquisitionChannel) (s : string) :
  ChannelName ch <> s -> String.length s = 1%nat ->
  s <> "_"%string -> channel_name ch <> s.
Proof.
  unfold channel_name. intros Hname Hlen Hs.
  destruct (ChannelLabel ch) as [label|]; [|exact Hname].
  destruct s as [|a [|b s]]; try discriminate.
  destruct (ChannelName ch) as [|c [|c' name]]; simpl.
  - intros E. apply Hs. destruct label; [|discriminate].
    injection E as <-. reflexivity.
  - discriminate.
  - discriminate.
Qed.

(** C6: no record named X, Y or Z is among the channels of an
    acquisition, and none of the labels of the raster is "X", "Y" or
    "Z". *)
Theorem coordinate_channels_excluded (root : MCDPublic) (id_ : string) :
  (forall ch, In ch (channels_of root id_) ->
      ChannelName ch <> "X"%string /\ ChannelName ch <> "Y"%string /\
      ChannelName ch <> "Z"%string) /\
  (forall ch, In ch (AcquisitionChannels root) ->
      ChannelName ch = "X"%string \/ ChannelName ch = "Y"%string \/
      ChannelName ch = "Z"%string ->
      ~ In ch (channels_of root id_)) /\
  (forall stem path fill_missing mm acq da,
      ID acq = id_ ->
      read_acquisition stem path fill_missing mm root acq = Ok da ->
      ~ In "X"%string (da_c da) /\ ~ In "Y"%string (da_c da) /\
      ~ In "Z"%string (da_c da)).
Proof.
  assert (Hnames : forall ch, In ch (channels_of root id_) ->
      ChannelName ch <> "X"%string /\ ChannelName ch <> "Y"%string /\
      ChannelName ch <> "Z"%string).
  { intros ch Hin. apply in_channels_of in Hin. destruct Hin as [_ Hin].
    now apply is_channel_of_spec in Hin. }
  split; [exact Hnames|]. split.
  - intros ch _ Hxyz Hin. destruct (Hnames ch Hin) as (Hx & Hy & Hz).
    tauto.
  - intros stem path fill_missing mm acq da <- Hda.
    apply read_acquisition_names in Hda. destruct Hda as [-> _].
    repeat split; intros Hin; apply in_map_iff in Hin;
      destruct Hin as (ch & Hname & Hin);
      destruct (Hnames ch Hin) as (Hx & Hy & Hz);
      revert Hname; apply channel_name_not_coordinate;
      (assumption || reflexivity || discriminate).
Qed.

Example read_2x2 :
  read_acquisition (fun s => s) "a.mcd" None mm_2x2 root_2x2 acq_2x2 =
  Ok da_2x2.
Proof. vm_compute. reflexivity. Qed.

Lemma coordinate_channels_excluded_witness :
  In (mk_AcquisitionChannel "1" "X" (Some "X"%string) 0)
     (AcquisitionChannels root_2x2) /\
  read_acquisition (fun s => s) "a.mcd" None mm_2x2 root_2x2 acq_2x2 =
    Ok da_2x2 /\
  ~ In "X"%string (da_c da_2x2) /\ ~ In "Y"%string (da_c da_2x2) /\
  ~ In "Z"%string (da_c da_2x2).
Proof.
  assert (Hin : In (mk_AcquisitionChannel "1" "X" (Some "X"%string) 0)
                   (AcquisitionChannels root_2x2)) by (left; reflexivity).
  assert (Hread : read_acquisition (fun s => s) "a.mcd" None mm_2x2
                    root_2x2 acq_2x2 = Ok da_2x2)
    by (vm_compute; reflexivity).
  exact (conj Hin (conj Hread
    (proj2 (proj2 (coordinate_channels_excluded root_2x2 "1"))
       (fun s => s) "a.mcd"%string None mm_2x2 acq_2x2 da_2x2
       eq_refl Hread))).
Defined.

(** ** Unsupported encodings *)




(** ** The footer *)

Lemma is_prefix_spec (p l : list byte) :
  is_prefix p l = true <-> exists t, l = p ++ t.
Proof.
  revert l. induction p as [|a p IH]; intros l; simpl.
  - split; [intros _; now exists l | reflexivity].
  - destruct l as [|b l].
    + split; [discriminate | intros [t Ht]; discriminate].
    + unfold byte_eqb. rewrite andb_true_iff, IH. split.
      * intros [Hab [t ->]]. apply Byte.byte_dec_bl in Hab. subst b.
        now exists t.
      * intros [t Ht]. injection Ht as -> ->. split; [|now exists t].
        now apply Byte.byte_dec_lb.
Qed.

Lemma occurs_at_prefix (sub mm : list byte) (i : nat) :
  occurs_at sub mm i <->
  (i <= length mm)%nat /\ is_prefix sub (skipn i mm) = true.
Proof.
  unfold occurs_at. rewrite is_prefix_spec. split.
  - intros (pre & post & -> & <-). split.
    + rewrite length_app. lia.
    + exists post. apply skipn_app_exact.
  - intros [Hi [t Ht]]. exists (firstn i mm), t. split.
    + rewrite <- Ht. symmetry. apply firstn_skipn.
    + rewrite length_firstn. lia.
Qed.

Lemma rfind_upto_none (mm sub : list byte) (n : nat) :
  (forall i, (i <= n)%nat -> is_prefix sub (skipn i mm) = false) ->
  rfind_upto mm sub n = -1.
Proof.
  induction n as [|n IH]; intros H; cbn [rfind_upto].
  - now rewrite (H 0%nat) by lia.
  - rewrite (H (S n)) by lia. apply IH. intros i Hi. apply H. lia.
Qed.

Lemma rfind_upto_last (mm sub : list byte) (n i : nat) :
  (i <= n)%nat -> is_prefix sub (skipn i mm) = true ->
  (forall j, (i < j <= n)%nat -> is_prefix sub (skipn j mm) = false) ->
  rfind_upto mm sub n = Z.of_nat i.
Proof.
  induction n as [|n IH]; intros Hi Hp Hlast.
  - assert (i = 0)%nat by lia. subst i. cbn [rfind_upto]. now rewrite Hp.
  - destruct (Nat.eq_dec i (S n)) as [->|Hne].
    + cbn [rfind_upto]. now rewrite Hp.
    + cbn [rfind_upto]. rewrite (Hlast (S n)) by lia.
      apply IH; [lia | assumption|]. intros j Hj. apply Hlast. lia.
Qed.

(** [rfind] gives -1 exactly when there is no occurrence, and the last
    occurrence otherwise. *)
Lemma rfind_none (mm sub : list byte) :
  (forall i, ~ occurs_at sub mm i) -> rfind mm sub = -1.
Proof.
  intros H. apply rfind_upto_none. intros i Hi.
  destruct (is_prefix sub (skipn i mm)) eqn:E; [|reflexivity].
  exfalso. apply (H i). apply occurs_at_prefix. now split.
Qed.

Lemma rfind_last (mm sub : list byte) (i : nat) :
  occurs_at sub mm i ->
  (forall j, occurs_at sub mm j -> (j <= i)%nat) ->
  rfind mm sub = Z.of_nat i.
Proof.
  intros Hocc Hlast. apply occurs_at_prefix in Hocc.
  destruct Hocc as [Hi Hp].
  apply rfind_upto_last; [assumption | assumption|].
  intros j Hj. destruct (is_prefix sub (skipn j mm)) eqn:E; [|reflexivity].
  assert (Hoj : occurs_at sub mm j) by (apply occurs_at_prefix; split; [lia | assumption]).
  apply Hlast in Hoj. lia.
Qed.

(** C8: the footer is searched for the marker ["<MCDPublic"] in the given
    encoding.  Without an occurrence the read fails with the [ValueError]
    that names the path and suggests another encoding, before anything
    is decoded or yielded.  Otherwise the offset found is the one of the
    last occurrence, and the bytes from there to the end of the container
    are decoded with that encoding and parsed. *)
Theorem footer_located_from_the_end
    (encode : string -> list byte) (decode : list byte -> result string)
    (parse : string -> result MCDPublic) (stem : string -> string)
    (path : string) (fill_missing : option Z) (mm : list byte) :
  let marker := encode "<MCDPublic"%string in
  let err := ValueError
    ("'" ++ path ++
     "' does not contain MCDPublic XML footer (try different encoding?).") in
  ((forall i, ~ occurs_at marker mm i) ->
   locate_footer encode path mm = Raise err /\
   read_footer encode decode parse path mm = Raise err /\
   (mm <> [] ->
    read_mcd encode decode parse stem path fill_missing mm = Throw err)) /\
  (forall i,
     occurs_at marker mm i ->
     (forall j, occurs_at marker mm j -> (j <= i)%nat) ->
     locate_footer encode path mm = Ok (Z.of_nat i) /\
     read_footer encode decode parse path mm =
       (let* xml := decode (skipn i mm) in parse xml)).
Proof.
  intros marker err. split.
  - intros Hnone.
    assert (Hloc : locate_footer encode path mm = Raise err).
    { unfold locate_footer. fold marker. now rewrite (rfind_none mm marker Hnone). }
    assert (Hfoot : read_footer encode decode parse path mm = Raise err).
    { unfold read_footer. now rewrite Hloc. }
    split; [exact Hloc|]. split; [exact Hfoot|].
    intros Hne. unfold read_mcd. destruct mm; [congruence|].
    now rewrite Hfoot.
  - intros i Hocc Hlast.
    assert (Hloc : locate_footer encode path mm = Ok (Z.of_nat i)).
    { unfold locate_footer. fold marker.
      rewrite (rfind_last mm marker i Hocc Hlast).
      destruct (Z.eqb_spec (Z.of_nat i) (-1)); [lia | reflexivity]. }
    split; [exact Hloc|].
    unfold read_footer. rewrite Hloc. cbn [bind].
    apply occurs_at_prefix in Hocc. destruct Hocc as [Hi _].
    rewrite mm_seek_ok by lia. cbn [bind].
    unfold mm_read. now rewrite Nat2Z.id.
Qed.

Lemma rfind_upto_cases (mm sub : list byte) (n : nat) :
  (rfind_upto mm sub n = -1 /\
   forall i, (i <= n)%nat -> is_prefix sub (skipn i mm) = false) \/
  (exists k, (k <= n)%nat /\ rfind_upto mm sub n = Z.of_nat k /\
             is_prefix sub (skipn k mm) = true /\
             forall j, (k < j <= n)%nat ->
                       is_prefix sub (skipn j mm) = false).
Proof.
  induction n as [|n IH]; cbn [rfind_upto].
  - destruct (is_prefix sub (skipn 0 mm)) eqn:E.
    + right. exists 0%nat.
      split; [lia|]. split; [reflexivity|]. split; [exact E|].
      intros j Hj. lia.
    + left. split; [reflexivity|]. intros i Hi.
      assert (i = 0)%nat by lia. now subst i.
  - destruct (is_prefix sub (skipn (S n) mm)) eqn:E.
    + right. exists (S n).
      split; [lia|]. split; [reflexivity|]. split; [exact E|].
      intros j Hj. lia.
    + destruct IH as [[Hm Hall] | (k & Hk & Hr & Hp & Hlast)].
      * left. split; [exact Hm|]. intros i Hi.
        destruct (Nat.eq_dec i (S n)) as [->|]; [exact E | apply Hall; lia].
      * right. exists k.
        split; [lia|]. split; [exact Hr|]. split; [exact Hp|].
        intros j Hj.
        destruct (Nat.eq_dec j (S n)) as [->|]; [exact E | apply Hlast; lia].
Qed.

Lemma rfind_none_inv (mm sub : list byte) :
  rfind mm sub = -1 -> forall i, ~ occurs_at sub mm i.
Proof.
  unfold rfind. intros Hr i Hocc. apply occurs_at_prefix in Hocc.
  destruct Hocc as [Hi Hp].
  destruct (rfind_upto_cases mm sub (length mm))
    as [[_ Hall] | (k & _ & Hk & _)].
  - rewrite (Hall i Hi) in Hp. discriminate.
  - rewrite Hk in Hr. lia.
Qed.

Lemma rfind_last_inv (mm sub : list byte) (i : nat) :
  rfind mm sub = Z.of_nat i ->
  occurs_at sub mm i /\ forall j, occurs_at sub mm j -> (j <= i)%nat.
Proof.
  unfold rfind. intros Hr.
  destruct (rfind_upto_cases mm sub (length mm))
    as [[Hm _] | (k & Hkn & Hk & Hp & Hlast)].
  - rewrite Hm in Hr. lia.
  - rewrite Hk in Hr. apply Nat2Z.inj in Hr. subst k. split.
    + apply occurs_at_prefix. now split.
    + intros j Hocc. apply occurs_at_prefix in Hocc.
      destruct Hocc as [Hj Hpj].
      destruct (Nat.le_gt_cases j i) as [|Hgt]; [assumption|].
      rewrite (Hlast j) in Hpj by lia. discriminate.
Qed.

Example footer_wrong_encoding :
  locate_footer encode_latin_1 "a.mcd" mm_footer =
  Raise (ValueError
    "'a.mcd' does not contain MCDPublic XML footer (try different encoding?).").
Proof. vm_compute. reflexivity. Qed.

Example footer_right_encoding :
  locate_footer encode_utf_16_le "a.mcd" mm_footer = Ok 3 /\
  decode_utf_16_le (skipn 3 mm_footer) = Ok "<MCDPublic/>"%string.
Proof. split; vm_compute; reflexivity. Qed.

Lemma footer_located_from_the_end_witness :
  (forall i, ~ occurs_at (encode_latin_1 "<MCDPublic") mm_footer i) /\
  locate_footer encode_latin_1 "a.mcd" mm_footer =
    Raise (ValueError (no_footer_msg "a.mcd")) /\
  occurs_at (encode_utf_16_le "<MCDPublic") mm_footer 3 /\
  read_footer encode_utf_16_le decode_utf_16_le
    (fun _ => Ok root_2x2) "a.mcd" mm_footer = Ok root_2x2.
Proof.
  assert (Hnone : forall i,
            ~ occurs_at (encode_latin_1 "<MCDPublic") mm_footer i)
    by (apply rfind_none_inv; vm_compute; reflexivity).
  destruct (rfind_last_inv mm_footer (encode_utf_16_le "<MCDPublic") 3)
    as [Hocc Hlast]; [vm_compute; reflexivity|].
  destruct (footer_located_from_the_end encode_latin_1 decode_utf_16_le
              (fun _ => Ok root_2x2) (fun s => s) "a.mcd" None mm_footer)
    as [Hfail _].
  destruct (footer_located_from_the_end encode_utf_16_le decode_utf_16_le
              (fun _ => Ok root_2x2) (fun s => s) "a.mcd" None mm_footer)
    as [_ Hfound].
  split; [exact Hnone|]. split; [exact (proj1 (Hfail Hnone))|].
  split; [exact Hocc|].
  destruct (Hfound 3%nat Hocc Hlast) as [_ Hread].
  rewrite Hread. vm_compute. reflexivity.
Defined.

(** ** The summary of [write_ometiff] *)

Example split_examples :
  split_on "_" "Ir191_DNA" = ["Ir191"; "DNA"]%string /\
  split_on "_" "Ir191" = ["Ir191"%string] /\
  split_on "_" "CD45_RA_x" = ["CD45"; "RA"; "x"]%string /\
  split_on "_" "_" = [""; ""]%string /\
  split_on "_" "" = [""%string].
Proof. repeat split. Qed.

Lemma split_on_length (sep : ascii) (s : string) :
  length (split_on sep s) = S (count_char sep s).
Proof.
  induction s as [|a s IH]; [reflexivity|].
  cbn [split_on count_char]. destruct (Ascii.eqb a sep).
  - cbn [length]. now rewrite IH.
  - destruct (split_on sep s) as [|h t]; [discriminate|].
    cbn [length] in *. exact IH.
Qed.

Lemma join_split (sep : ascii) (s : string) :
  join sep (split_on sep s) = s.
Proof.
  induction s as [|c s IH]; [reflexivity|].
  cbn [split_on]. pose proof (split_on_length sep s) as Hl.
  destruct (Ascii.eqb_spec c sep) as [->|Hne].
  - destruct (split_on sep s) as [|h t]; [discriminate|].
    cbn [join] in *. cbn [append]. now rewrite IH.
  - destruct (split_on sep s) as [|h t]; [discriminate|].
    destruct t as [|h' t]; cbn [join] in *; cbn [append]; now rewrite IH.
Qed.

Lemma split_on_two (sep : ascii) (s a b : string) :
  split_on sep s = [a; b] ->
  s = (a ++ String sep b)%string /\ count_char sep s = 1%nat.
Proof.
  intros H. split.
  - rewrite <- (join_split sep s), H. reflexivity.
  - pose proof (split_on_length sep s) as Hl. rewrite H in Hl.
    cbn [length] in Hl. lia.
Qed.

Lemma summary_row_of_ok (imarr : DataArray) (page : nat) (name : string)
    (row : summary_row) :
  summary_row_of imarr page name = Ok row ->
  split_on "_" name = [Channel row; Label row] /\ Page row = Z.of_nat page.
Proof.
  unfold summary_row_of.
  destruct (split_on "_" name) as [|a [|b [|c t]]]; try discriminate.
  destruct (np_min _ _) as [mn|]; [|discriminate]. cbn [bind].
  destruct (np_max _ _) as [mx|]; [|discriminate]. cbn [bind].
  intros H. injection H as <-. split; reflexivity.
Qed.

Lemma summary_row_of_raises (imarr : DataArray) (page : nat) (name : string)
    (e : exn) :
  summary_row_of imarr page name = Raise e -> exists msg, e = ValueError msg.
Proof.
  unfold summary_row_of, np_min, np_max.
  destruct (split_on "_" name) as [|a [|b [|c t]]];
    try (intros H; injection H as <-; eexists; reflexivity).
  destruct (channel_values _ _); cbn [bind];
    intros H; try discriminate; injection H as <-; eexists; reflexivity.
Qed.

Lemma summary_rows_ok (imarr : DataArray) (names : list string) :
  forall (page : nat) (rows : list summary_row),
  summary_rows imarr page names = Ok rows ->
  Forall2 (fun name row =>
             name = (Channel row ++ "_" ++ Label row)%string /\
             count_char "_" name = 1%nat) names rows.
Proof.
  induction names as [|name names IH]; intros page rows; cbn [summary_rows].
  - intros H. injection H as <-. constructor.
  - destruct (summary_row_of imarr page name) as [row|] eqn:Er;
      [|discriminate]. cbn [bind].
    destruct (summary_rows imarr (S page) names) as [rest|] eqn:Es;
      [|discriminate]. cbn [bind].
    intros H. injection H as <-. constructor; [|now apply (IH (S page))].
    apply summary_row_of_ok in Er. destruct Er as [Er _].
    now apply split_on_two in Er.
Qed.

Lemma summary_rows_raises (imarr : DataArray) (names : list string) :
  forall (page : nat) (e : exn),
  summary_rows imarr page names = Raise e -> exists msg, e = ValueError msg.
Proof.
  induction names as [|name names IH]; intros page e; cbn [summary_rows];
    [discriminate|].
  destruct (summary_row_of imarr page name) as [row|e'] eqn:Er; cbn [bind].
  - destruct (summary_rows imarr (S page) names) as [rest|e'] eqn:Es;
      cbn [bind]; [discriminate|].
    intros H. injection H as <-. now apply (IH (S page)).
  - intros H. injection H as <-. now apply summary_row_of_raises in Er.
Qed.

Lemma Forall2_In_left {A B : Type} (R : A -> B -> Prop) (l : list A)
    (l' : list B) (x : A) :
  Forall2 R l l' -> In x l -> exists y, In y l' /\ R x y.
Proof.
  induction 1 as [|a b l l' Hab _ IH]; intros Hin; [destruct Hin|].
  destruct Hin as [->|Hin].
  - exists b. split; [now left | assumption].
  - destruct (IH Hin) as (y & Hy & Hr). exists y. split; [now right | assumption].
Qed.

(** C10: the summary takes each display name apart at its underscores and
    needs exactly two parts.  If a channel of the raster has a display
    name without underscore (a channel without label) or with more than
    one, writing the summary raises [ValueError] and gives no rows; when it
    does give rows, every display name is [channel_label] with a single
    underscore. *)
Theorem summary_needs_one_underscore (imarr : DataArray) :
  ((exists name, In name (da_c imarr) /\ count_char "_" name <> 1%nat) ->
   exists msg, write_ometiff_summary imarr = Raise (ValueError msg)) /\
  (forall rows, write_ometiff_summary imarr = Ok rows ->
     Forall2 (fun name row =>
                name = (Channel row ++ "_" ++ Label row)%string /\
                count_char "_" name = 1%nat) (da_c imarr) rows).
Proof.
  unfold write_ometiff_summary. split.
  - intros (name & Hin & Hbad).
    destruct (summary_rows imarr 0 (da_c imarr)) as [rows|e] eqn:E.
    + exfalso. apply summary_rows_ok in E.
      destruct (Forall2_In_left _ _ _ _ E Hin) as (row & _ & _ & Hone).
      contradiction.
    + destruct (summary_rows_raises _ _ _ _ E) as [msg ->]. now exists msg.
  - intros rows. apply summary_rows_ok.
Qed.

Example summary_examples :
  write_ometiff_summary da_2x2 =
    Ok [mk_summary_row 0 "Ir191" "DNA" f10 f40] /\
  write_ometiff_summary da_unlabelled =
    Raise (ValueError "not enough values to unpack (expected 2, got 1)").
Proof. split; vm_compute; reflexivity. Qed.

Lemma summary_needs_one_underscore_witness :
  (exists name, In name (da_c da_unlabelled) /\
                count_char "_" name <> 1%nat) /\
  exists msg, write_ometiff_summary da_unlabelled = Raise (ValueError msg).
Proof.
  assert (Hbad : exists name, In name (da_c da_unlabelled) /\
                              count_char "_" name <> 1%nat).
  { exists "Ar80"%string. split; [right; left; reflexivity|].
    vm_compute. discriminate. }
  exact (conj Hbad (proj1 (summary_needs_one_underscore da_unlabelled) Hbad)).
Defined.

(** * Further properties *)

(** ** The name of the summary file *)

Example summaryfname_examples :
  summaryfname "a.ome.tiff" = "a_summary.txt"%string /\
  summaryfname "roi_1.tiff" = "roi_1_summary.txt"%string /\
  summaryfname "stiff.tiff" = "s_summary.txt"%string /\
  summaryfname "image" = "image_summary.txt"%string /\
  suffixes "a.ome.tiff" = [".ome"; ".tiff"]%string /\
  suffixes ".hidden" = [] /\
  suffixes "a." = [] /\
  before_suffixes "a.ome.tiff" = "a"%string /\
  before_suffixes "..a.b" = "..a"%string.
Proof. repeat split. Qed.

Lemma append_empty_r (s : string) : (s ++ "")%string = s.
Proof. induction s as [|c s IH]; simpl; [reflexivity | now rewrite IH]. Qed.

Lemma append_assoc (a b c : string) :
  ((a ++ b) ++ c)%string = (a ++ (b ++ c))%string.
Proof. induction a as [|x a IH]; simpl; [reflexivity | now rewrite IH]. Qed.

Lemma rstrip_all_in (chars s : string) :
  all_in chars s = true -> rstrip chars s = EmptyString.
Proof.
  induction s as [|c s IH]; simpl; [reflexivity|].
  intros H. apply andb_true_iff in H. destruct H as [Hc Hs].
  now rewrite (IH Hs), Hc.
Qed.

(** Trailing characters of the set do not count. *)
Lemma rstrip_app (chars a b : string) :
  all_in chars b = true -> rstrip chars (a ++ b) = rstrip chars a.
Proof.
  intros Hb. induction a as [|c a IH]; simpl.
  - now apply rstrip_all_in.
  - now rewrite IH.
Qed.

Lemma rstrip_keep (chars b : string) (c : ascii) :
  mem_char c chars = false ->
  rstrip chars (b ++ String c "") = (b ++ String c "")%string.
Proof.
  intros Hc. induction b as [|a b IH]; simpl.
  - now rewrite Hc.
  - rewrite IH. destruct b; reflexivity.
Qed.

Lemma mem_char_app (c : ascii) (a b : string) :
  mem_char c (a ++ b) = mem_char c a || mem_char c b.
Proof.
  induction a as [|x a IH]; simpl; [reflexivity|].
  now rewrite IH, orb_assoc.
Qed.

Lemma all_in_weaken (chars s : string) (x : ascii) :
  all_in chars s = true -> all_in (String x chars) s = true.
Proof.
  induction s as [|c s IH]; simpl; [reflexivity|].
  intros H. apply andb_true_iff in H. destruct H as [Hc Hs].
  rewrite Hc, (IH Hs). now rewrite orb_true_r.
Qed.

Lemma all_in_self (s : string) : all_in s s = true.
Proof.
  induction s as [|c s IH]; simpl; [reflexivity|].
  rewrite Ascii.eqb_refl. simpl. now apply all_in_weaken.
Qed.

Lemma leading_lstrip (chars s : string) :
  s = (leading chars s ++ lstrip chars s)%string.
Proof.
  induction s as [|c s IH]; simpl; [reflexivity|].
  destruct (mem_char c chars); simpl; [now rewrite <- IH | reflexivity].
Qed.

Lemma join_cons (sep : ascii) (h : string) (t : list string) :
  join sep (h :: t) = (h ++ join_empty (map (String sep) t))%string.
Proof.
  revert h. induction t as [|x t IH]; intros h.
  - simpl. now rewrite append_empty_r.
  - change (join sep (h :: x :: t))
      with (h ++ String sep (join sep (x :: t)))%string.
    rewrite IH. reflexivity.
Qed.

Lemma name_before_suffixes (name : string) :
  name = (before_suffixes name ++ join_empty (suffixes name))%string.
Proof.
  unfold before_suffixes, suffixes.
  destruct (endswith "." name); [now rewrite append_empty_r|].
  pose proof (join_split "." (lstrip "." name)) as Hj.
  pose proof (split_on_length "." (lstrip "." name)) as Hl.
  destruct (split_on "." (lstrip "." name)) as [|h t]; [discriminate|].
  rewrite join_cons in Hj. cbn [hd tl].
  change (fun s : string => String "." s) with (String ".").
  rewrite append_assoc, Hj. apply leading_lstrip.
Qed.

(** X12: the name of the summary file is the file name with its trailing
    characters removed as long as they occur among the characters of the
    suffixes, followed by "_summary.txt".  The suffixes themselves always
    go; the part before them is kept whole when its last character is not
    one of the suffixes' characters, and loses that character (and
    possibly more) when it is. *)
Theorem summaryfname_strips_characters (name : string) :
  let sfx := join_empty (suffixes name) in
  let base := before_suffixes name in
  name = (base ++ sfx)%string /\
  summaryfname name = (rstrip sfx base ++ "_summary.txt")%string /\
  (forall b c, base = (b ++ String c "")%string ->
     mem_char c sfx = false ->
     summaryfname name = (base ++ "_summary.txt")%string) /\
  (forall b c, base = (b ++ String c "")%string ->
     mem_char c sfx = true ->
     summaryfname name = (rstrip sfx b ++ "_summary.txt")%string).
Proof.
  intros sfx base.
  assert (Hname : name = (base ++ sfx)%string) by apply name_before_suffixes.
  assert (Hstrip : summaryfname name
                   = (rstrip sfx base ++ "_summary.txt")%string).
  { unfold summaryfname. fold sfx.
    replace (rstrip sfx name) with (rstrip sfx (base ++ sfx))
      by (f_equal; symmetry; exact Hname).
    now rewrite rstrip_app by apply all_in_self. }
  split; [exact Hname|]. split; [exact Hstrip|]. split.
  - intros b c Hb Hc. rewrite Hstrip, Hb. now rewrite rstrip_keep.
  - intros b c Hb Hc. rewrite Hstrip, Hb.
    rewrite rstrip_app; [reflexivity|]. simpl. now rewrite Hc.
Qed.

Lemma summaryfname_strips_characters_witness :
  before_suffixes "stiff.tiff" = ("stif" ++ String "f" "")%string /\
  mem_char "f" (join_empty (suffixes "stiff.tiff")) = true /\
  summaryfname "stiff.tiff" = "s_summary.txt"%string /\
  before_suffixes "roi_1.tiff" = ("roi_" ++ String "1" "")%string /\
  mem_char "1" (join_empty (suffixes "roi_1.tiff")) = false /\
  summaryfname "roi_1.tiff" = "roi_1_summary.txt"%string.
Proof.
  assert (H1 : before_suffixes "stiff.tiff" = ("stif" ++ String "f" "")%string)
    by reflexivity.
  assert (H2 : mem_char "f" (join_empty (suffixes "stiff.tiff")) = true)
    by reflexivity.
  assert (H3 : before_suffixes "roi_1.tiff" = ("roi_" ++ String "1" "")%string)
    by reflexivity.
  assert (H4 : mem_char "1" (join_empty (suffixes "roi_1.tiff")) = false)
    by reflexivity.
  pose proof (proj2 (proj2 (proj2
    (summaryfname_strips_characters "stiff.tiff"))) "stif"%string "f"%char
    H1 H2) as Hlost.
  pose proof (proj1 (proj2 (proj2
    (summaryfname_strips_characters "roi_1.tiff"))) "roi_"%string "1"%char
    H3 H4) as Hkept.
  exact (conj H1 (conj H2 (conj Hlost (conj H3 (conj H4 Hkept))))).
Defined.

(** ** The order of channels with the same order number *)

Lemma filter_insert_by {A : Type} (key : A -> Z) (k : Z) (x : A)
    (l : list A) :
  filter (fun a => key a =? k) (insert_by key x l) =
  if key x =? k then x :: filter (fun a => key a =? k) l
  else filter (fun a => key a =? k) l.
Proof.
  induction l as [|y t IH]; cbn [insert_by].
  - cbn [filter]. destruct (key x =? k); reflexivity.
  - destruct (Z.leb_spec (key x) (key y)) as [Hle|Hgt].
    + cbn [filter]. destruct (key x =? k); reflexivity.
    + cbn [filter]. rewrite IH.
      destruct (Z.eqb_spec (key x) k) as [Ex|Ex];
        destruct (Z.eqb_spec (key y) k) as [Ey|Ey]; try reflexivity.
      lia.
Qed.

Lemma filter_sorted {A : Type} (key : A -> Z) (k : Z) (l : list A) :
  filter (fun a => key a =? k) (sorted key l) =
  filter (fun a => key a =? k) l.
Proof.
  induction l as [|x l IH]; [reflexivity|].
  cbn [sorted fold_right]. fold (sorted key l).
  rewrite filter_insert_by, IH. cbn [filter].
  destruct (key x =? k); reflexivity.
Qed.

(** X10: the sort of the channels is stable: for every order number, the
    channels of an acquisition that carry it are emitted in the order in
    which the document lists them. *)
Theorem channels_with_equal_order_keep_document_order (root : MCDPublic)
    (id_ : string) (n : Z) :
  filter (fun ch => OrderNumber ch =? n) (channels_of root id_) =
  filter (fun ch => OrderNumber ch =? n)
         (filter (is_channel_of id_) (AcquisitionChannels root)).
Proof. unfold channels_of. rewrite filter_sorted. reflexivity. Qed.

(** ** Channel records of other acquisitions *)



(** ** More on decoding the records *)






(** ** The shape of the rasters *)

Lemma fix_unknown_dimension_shape (size d0 d1 d2 : Z) (shape : list Z) :
  0 <= size -> 0 <= d2 ->
  fix_unknown_dimension size [d0; d1; d2] = Ok shape ->
  exists s0 s1,
    shape = [s0; s1; d2] /\ 0 <= s0 /\ 0 <= s1 /\ size = s0 * s1 * d2.
Proof.
  intros Hsize Hd2. unfold fix_unknown_dimension. cbn [filter].
  destruct (Z.ltb_spec d2 0) as [Hd2n|Hd2n]; [lia|].
  destruct (Z.leb_spec 0 d2) as [Hd2p|Hd2p]; [|lia].
  destruct (Z.ltb_spec d0 0) as [Hd0|Hd0];
    destruct (Z.leb_spec 0 d0) as [Hd0'|Hd0']; try lia;
    destruct (Z.ltb_spec d1 0) as [Hd1|Hd1];
    destruct (Z.leb_spec 0 d1) as [Hd1'|Hd1']; try lia;
    cbn [fold_right map].
  - discriminate.
  - rewrite Z.mul_1_r.
    destruct (Z.eqb_spec (d1 * d2) 0) as [|Hnz]; [discriminate|].
    destruct (Z.eqb_spec (size mod (d1 * d2)) 0) as [Hm|]; [|discriminate].
    cbn [orb negb]. intros H. injection H as <-.
    destruct (Z.ltb_spec d0 0); [|lia]. destruct (Z.ltb_spec d1 0); [lia|].
    destruct (Z.ltb_spec d2 0); [lia|].
    assert (0 < d1 * d2) by nia.
    exists (size / (d1 * d2)), d1. repeat split; try lia.
    + apply Z.div_pos; lia.
    + pose proof (Z.div_mod size (d1 * d2) ltac:(lia)). nia.
  - rewrite Z.mul_1_r.
    destruct (Z.eqb_spec (d0 * d2) 0) as [|Hnz]; [discriminate|].
    destruct (Z.eqb_spec (size mod (d0 * d2)) 0) as [Hm|]; [|discriminate].
    cbn [orb negb]. intros H. injection H as <-.
    destruct (Z.ltb_spec d0 0); [lia|]. destruct (Z.ltb_spec d1 0); [|lia].
    destruct (Z.ltb_spec d2 0); [lia|].
    assert (0 < d0 * d2) by nia.
    exists d0, (size / (d0 * d2)). repeat split; try lia.
    + apply Z.div_pos; lia.
    + pose proof (Z.div_mod size (d0 * d2) ltac:(lia)). nia.
  - rewrite Z.mul_1_r.
    destruct (Z.eqb_spec size (d0 * (d1 * d2))) as [E|]; [|discriminate].
    intros H. injection H as <-.
    exists d0, d1. repeat split; try lia.
Qed.

Lemma reshape3_shape (dt : dtype) (flat : list Z) (d0 d1 d2 : Z)
    (img : ndarray3) :
  0 <= d2 -> reshape3 dt flat d0 d1 d2 = Ok img ->
  exists s0 s1,
    0 <= s0 /\ 0 <= s1 /\ Z.of_nat (length flat) = s0 * s1 * d2 /\
    img = mk_ndarray3 dt (s0, s1, d2)
            (map (chunks (Z.to_nat s1) (Z.to_nat d2))
                 (chunks (Z.to_nat s0) (Z.to_nat (s1 * d2)) flat)).
Proof.
  intros Hd2. unfold reshape3.
  destruct (fix_unknown_dimension _ _) as [shape|] eqn:E; [|discriminate].
  apply fix_unknown_dimension_shape in E; [|lia|assumption].
  destruct E as (s0 & s1 & -> & Hs0 & Hs1 & Hsize).
  cbn [bind]. intros H. injection H as <-.
  exists s0, s1. repeat split; assumption.
Qed.

Lemma xyzc_reshapes (arr : ndarray2) (fill_missing : option Z)
    (img : ndarray3) :
  _xyzc_to_arr arr fill_missing = Ok img ->
  exists dt flat d0 d1,
    reshape3 dt flat d0 d1 (a_ncols arr - 3) = Ok img.
Proof.
  unfold _xyzc_to_arr.
  destruct (np_max _ (column 0 arr)) as [mx|]; [|discriminate].
  cbn [bind].
  destruct (np_max _ (column 1 arr)) as [my|]; [|discriminate].
  cbn [bind].
  destruct (match fill_missing with Some _ => _ | None => _ end)
    as [arr'|]; [|discriminate].
  cbn [bind]. intros H. eauto.
Qed.

Lemma read_acquisition_inv (stem : string -> string) (path : string)
    (fill_missing : option Z) (mm : list byte) (root : MCDPublic)
    (acq : Acquisition) (da : DataArray) :
  read_acquisition stem path fill_missing mm root acq = Ok da ->
  exists arr img,
    supported acq = true /\
    read_records mm acq (record_width root acq) = Ok arr /\
    match fill_missing with
    | None => _is_missing_values arr = Ok false
    | Some _ => True
    end /\
    _xyzc_to_arr arr fill_missing = Ok img /\
    da = mk_DataArray img (stem path ++ "_" ++ ID acq)%string
           ["y"; "x"; "c"]%string
           (range (snd (fst (i_shape img)))) (range (fst (fst (i_shape img))))
           (map channel_name (channels_of root (ID acq))) acq.
Proof.
  unfold read_acquisition. rewrite <- negb_andb. fold (supported acq).
  destruct (supported acq) eqn:Hsup; [|discriminate]. cbn [negb].
  fold (record_width root acq).
  destruct (read_records mm acq (record_width root acq)) as [arr|] eqn:Hrec;
    [|discriminate]. cbn [bind].
  destruct (match fill_missing with Some _ => _ | None => _ end)
    as [[|]|] eqn:Em; try discriminate. cbn [bind].
  destruct (_xyzc_to_arr arr fill_missing) as [img|] eqn:Himg;
    [|discriminate].
  cbn [bind]. destruct (i_shape img) as [[s0 s1] s2] eqn:Es.
  intros H. injection H as <-. exists arr, img.
  split; [reflexivity|]. split; [reflexivity|]. split.
  - destruct fill_missing; [exact I | exact Em].
  - split; [exact Himg|]. rewrite Es. reflexivity.
Qed.

Lemma length_range (n : Z) : length (range n) = Z.to_nat n.
Proof. unfold range. now rewrite length_map, length_seq. Qed.

(** X8: every raster that [read_mcd] yields is rectangular.  Its shape
    (h, w, c) has [c] the number of channels of the acquisition; the data
    are [h] lines of [w] cells of [c] values; the labels of the axes have
    the lengths of the axes, [0..w-1] for x, [0..h-1] for y and the [c]
    display names. *)
Theorem rasters_are_rectangular (stem : string -> string) (path : string)
    (fill_missing : option Z) (mm : list byte) (root : MCDPublic)
    (acq : Acquisition) (da : DataArray) :
  read_acquisition stem path fill_missing mm root acq = Ok da ->
  exists h w c,
    i_shape (da_values da) = (h, w, c) /\ 0 <= h /\ 0 <= w /\
    c = Z.of_nat (length (channels_of root (ID acq))) /\
    da_dims da = ["y"; "x"; "c"]%string /\
    da_x da = range w /\ length (da_x da) = Z.to_nat w /\
    da_y da = range h /\ length (da_y da) = Z.to_nat h /\
    length (da_c da) = Z.to_nat c /\
    length (i_data (da_values da)) = Z.to_nat h /\
    Forall (fun line =>
              length line = Z.to_nat w /\
              Forall (fun cell => length cell = Z.to_nat c) line)
           (i_data (da_values da)).
Proof.
  intros Hda.
  destruct (read_acquisition_inv _ _ _ _ _ _ _ Hda)
    as (arr & img & _ & Hrec & _ & Himg & ->).
  assert (Hw : 3 <= record_width root acq) by (unfold record_width; lia).
  destruct (read_records_shape _ _ _ _ Hw Hrec) as (_ & Hcols & _).
  destruct (xyzc_reshapes _ _ _ Himg) as (dt & flat & d0 & d1 & Hre).
  rewrite Hcols in Hre.
  set (c := record_width root acq - 3) in *.
  assert (Hc : c = Z.of_nat (length (channels_of root (ID acq))))
    by (unfold c, record_width; lia).
  apply reshape3_shape in Hre; [|lia].
  destruct Hre as (h & w & Hh & Hw' & Hsize & ->).
  exists h, w, c. cbn [da_values i_shape i_data da_dims da_x da_y da_c fst snd].
  rewrite !length_range, !length_map, length_chunks.
  assert (Hflat : length flat = (Z.to_nat h * Z.to_nat (w * c))%nat).
  { rewrite <- Z2Nat.inj_mul by nia.
    rewrite <- (Nat2Z.id (length flat)). f_equal. lia. }
  repeat split; try assumption; try reflexivity; try lia.
  apply Forall_map.
  eapply Forall_impl; [|apply (chunks_uniform _ _ _ Hflat)].
  cbv beta. intros piece Hpiece. split.
  - apply length_chunks.
  - apply chunks_uniform. rewrite Hpiece. apply Z2Nat.inj_mul; lia.
Qed.

Lemma rasters_are_rectangular_witness :
  read_acquisition (fun s => s) "a.mcd" None mm_2x2 root_2x2 acq_2x2 =
    Ok da_2x2 /\
  exists h w c,
    i_shape (da_values da_2x2) = (h, w, c) /\
    length (da_c da_2x2) = Z.to_nat c /\
    length (i_data (da_values da_2x2)) = Z.to_nat h.
Proof.
  split; [exact read_2x2|].
  destruct (rasters_are_rectangular (fun s => s) "a.mcd" None mm_2x2
              root_2x2 acq_2x2 da_2x2 read_2x2)
    as (h & w & c & Hs & _ & _ & _ & _ & _ & _ & _ & _ & Hc & Hd & _).
  exists h, w, c. exact (conj Hs (conj Hc Hd)).
Defined.

(** ** The rasters of a container, in order *)





(** ** [_xyzc_to_arr] on complete and incomplete streams *)

Lemma Forall2_nth_intro {A B : Type} (R : A -> B -> Prop) (da : A) (db : B)
    (l1 : list A) (l2 : list B) :
  length l1 = length l2 ->
  (forall i, (i < length l1)%nat -> R (nth i l1 da) (nth i l2 db)) ->
  Forall2 R l1 l2.
Proof.
  revert l2. induction l1 as [|a l1 IH]; intros [|b l2] Hlen H;
    try discriminate; constructor.
  - apply (H 0%nat). simpl. lia.
  - apply IH; [simpl in Hlen; lia|].
    intros i Hi. apply (H (S i)). simpl. lia.
Qed.

Lemma nth_map_in {A B : Type} (f : A -> B) (l : list A) (i : nat) (d : B)
    (d' : A) :
  (i < length l)%nat -> nth i (map f l) d = f (nth i l d').
Proof.
  intros Hi. rewrite (nth_indep _ d (f d')) by now rewrite length_map.
  apply map_nth.
Qed.

Lemma is_int_inj (v : fval) (n m : Z) : is_int v n -> is_int v m -> n = m.
Proof.
  destruct v as [| |q]; simpl; try contradiction.
  intros Hn Hm. apply inject_Z_injective. now rewrite <- Hn, <- Hm.
Qed.

Lemma row_major_extent (arr : ndarray2) (h w : Z) :
  0 < h -> 0 < w -> shape0 arr = w * h -> row_major arr w ->
  grid_extent arr (w - 1) (h - 1).
Proof.
  intros Hh Hw Hn Hrm. unfold shape0 in Hn.
  set (n := length (a_rows arr)) in *.
  exists (map (fun i => Z.of_nat i mod w) (seq 0 n)),
         (map (fun i => Z.of_nat i / w) (seq 0 n)).
  assert (Hx : forall i, (i < n)%nat -> 0 <= Z.of_nat i mod w <= w - 1)
    by (intros i Hi; pose proof (Z.mod_pos_bound (Z.of_nat i) w Hw); lia).
  assert (Hy : forall i, (i < n)%nat -> 0 <= Z.of_nat i / w <= h - 1).
  { intros i Hi. split; [apply Z.div_pos; lia|].
    assert (Z.of_nat i / w < h); [|lia].
    apply Z.div_lt_upper_bound; lia. }
  split; [|split; [|split; [|split]]].
  - apply (Forall2_nth_intro _ 0 0); unfold column.
    + now rewrite !length_map, length_seq.
    + rewrite length_map. intros i Hi.
      rewrite (nth_map_in _ _ _ _ [] Hi).
      rewrite (nth_map_in _ _ _ _ 0%nat) by now rewrite length_seq.
      rewrite seq_nth by assumption. apply (Hrm i Hi).
  - apply (Forall2_nth_intro _ 0 0); unfold column.
    + now rewrite !length_map, length_seq.
    + rewrite length_map. intros i Hi.
      rewrite (nth_map_in _ _ _ _ [] Hi).
      rewrite (nth_map_in _ _ _ _ 0%nat) by now rewrite length_seq.
      rewrite seq_nth by assumption. apply (Hrm i Hi).
  - split.
    + apply in_map_iff. exists (Z.to_nat (w - 1)). split.
      * rewrite Z2Nat.id by lia. apply Z.mod_small. lia.
      * apply in_seq. nia.
    + apply Forall_forall. intros x Hin. apply in_map_iff in Hin.
      destruct Hin as (i & <- & Hi). apply in_seq in Hi.
      apply Hx. lia.
  - split.
    + apply in_map_iff. exists (Z.to_nat ((h - 1) * w)). split.
      * rewrite Z2Nat.id by nia. apply Z.div_mul. lia.
      * apply in_seq. nia.
    + apply Forall_forall. intros y Hin. apply in_map_iff in Hin.
      destruct Hin as (i & <- & Hi). apply in_seq in Hi.
      apply Hy. lia.
  - lia.
Qed.

(** X1: for a complete stream whose rows are in row-major order over
    (y, x), the raster holds every row at its coordinates: the cell of
    line y, column x is made of the channel values of the input row with
    these x and y.  The dtype is kept and a fill value plays no role. *)
Theorem row_major_rows_land_on_their_coordinates (arr : ndarray2)
    (fill_missing : option Z) (h w : Z) :
  well_shaped arr -> 0 < h -> 0 < w -> shape0 arr = w * h ->
  row_major arr w ->
  exists img,
    _xyzc_to_arr arr fill_missing = Ok img /\
    i_dtype img = a_dtype arr /\
    i_shape img = (h, w, a_ncols arr - 3) /\
    forall (r : list Z) (x y : Z),
      In r (a_rows arr) ->
      is_int (value_of (a_dtype arr) (nth 0 r 0)) x ->
      is_int (value_of (a_dtype arr) (nth 1 r 0)) y ->
      cell img (Z.to_nat y) (Z.to_nat x) = skipn 3 r.
Proof.
  intros Hws Hh Hw Hn Hrm.
  pose proof (row_major_extent arr h w Hh Hw Hn Hrm) as Hext.
  assert (Hn' : shape0 arr = (w - 1 + 1) * (h - 1 + 1)) by lia.
  eexists. split; [apply (xyzc_full arr fill_missing (w - 1) (h - 1));
                   assumption|].
  split; [reflexivity|].
  replace (h - 1 + 1) with h by lia. replace (w - 1 + 1) with w by lia.
  split; [reflexivity|].
  intros r x y Hin Hx Hy. unfold cell. cbn [i_data].
  destruct (In_nth _ _ [] Hin) as (i & Hi & Hr).
  destruct (Hrm i Hi) as [Hxi Hyi]. rewrite Hr in Hxi, Hyi.
  rewrite (is_int_inj _ _ _ Hx Hxi), (is_int_inj _ _ _ Hy Hyi).
  unfold shape0 in Hn.
  pose proof (Z.mod_pos_bound (Z.of_nat i) w Hw) as Hm.
  pose proof (Z.div_mod (Z.of_nat i) w ltac:(lia)) as Hdm.
  assert (Hd0 : 0 <= Z.of_nat i / w) by (apply Z.div_pos; lia).
  assert (Hdh : Z.of_nat i / w < h) by (apply Z.div_lt_upper_bound; lia).
  rewrite nth_chunks.
  - unfold cells_of.
    replace (Z.to_nat (Z.of_nat i / w) * Z.to_nat w
             + Z.to_nat (Z.of_nat i mod w))%nat with i by nia.
    rewrite (nth_map_in _ _ _ _ [] Hi). now rewrite Hr.
  - lia.
  - lia.
  - unfold cells_of. rewrite length_map. nia.
Qed.

Lemma arr_2x2_row_major : row_major arr_2x2 2.
Proof.
  intros i Hi. cbn [arr_2x2 a_rows length] in Hi.
  destruct i as [|[|[|[|i]]]]; try (exfalso; lia);
    split; vm_compute; reflexivity.
Qed.

Lemma arr_2x2_well_shaped : well_shaped arr_2x2.
Proof. prove_well_shaped. Qed.

Lemma row_major_rows_land_on_their_coordinates_witness :
  well_shaped arr_2x2 /\ row_major arr_2x2 2 /\
  exists img,
    _xyzc_to_arr arr_2x2 None = Ok img /\
    cell img (Z.to_nat 1) (Z.to_nat 0) = skipn 3 [f0; f1; f0; f30].
Proof.
  assert (Hh : 0 < 2) by lia.
  assert (Hn : shape0 arr_2x2 = 2 * 2) by reflexivity.
  destruct (row_major_rows_land_on_their_coordinates arr_2x2 None 2 2
              arr_2x2_well_shaped Hh Hh Hn arr_2x2_row_major)
    as (img & Himg & _ & _ & Hcells).
  split; [exact arr_2x2_well_shaped|]. split; [exact arr_2x2_row_major|].
  exists img. split; [exact Himg|].
  apply Hcells.
  - right; right; left; reflexivity.
  - vm_compute. reflexivity.
  - vm_compute. reflexivity.
Defined.

Lemma chunks_zero_width {A : Type} (k : nat) (l : list A) :
  chunks k 0 l = repeat [] k.
Proof. induction k as [|k IH]; simpl; [reflexivity | now rewrite IH]. Qed.

(** X2: without a fill value, [_xyzc_to_arr] needs as many rows as the
    grid has cells: with another number of rows and at least one channel,
    [reshape] raises.  With no channel at all there is nothing to
    reshape, and a raster of empty cells is returned whatever the number
    of rows. *)
Theorem xyzc_without_fill_needs_every_row (arr : ndarray2) (maxX maxY : Z) :
  well_shaped arr -> grid_extent arr maxX maxY ->
  (maxX + 1) * (maxY + 1) <= INT64_MAX ->
  shape0 arr <> (maxX + 1) * (maxY + 1) ->
  (3 < a_ncols arr ->
   _xyzc_to_arr arr None = Raise (ValueError "cannot reshape array")) /\
  (a_ncols arr = 3 ->
   _xyzc_to_arr arr None =
   Ok (mk_ndarray3 (a_dtype arr) (maxY + 1, maxX + 1, 0)
         (repeat (repeat [] (Z.to_nat (maxX + 1))) (Z.to_nat (maxY + 1))))).
Proof.
  intros (Hw & Hrows & Hfit) Hext HE Hn.
  pose proof Hext as (xs & ys & _ & _ & _ & _ & Hx0 & Hy0).
  destruct (grid_extent_sizes arr maxX maxY Hext HE) as
    (mx & my & Ex & Ey & _ & _ & Sx & Sy).
  pose proof (cells_of_length _ _ Hw Hrows) as Hcells.
  pose proof (length_concat_uniform _ _ Hcells) as Hflat.
  unfold cells_of in Hflat. rewrite length_map in Hflat.
  unfold shape0 in Hn.
  split.
  - intros Hc. unfold _xyzc_to_arr. rewrite Ex, Ey. cbn [bind].
    rewrite Sx, Sy. apply reshape3_mismatch; try lia.
    rewrite Hflat. nia.
  - intros Hc. assert (Hcz : a_ncols arr - 3 = 0) by lia.
    rewrite Hcz in Hflat. change (Z.to_nat 0) with 0%nat in Hflat.
    rewrite Nat.mul_0_r in Hflat.
    unfold _xyzc_to_arr. rewrite Ex, Ey. cbn [bind].
    rewrite Sx, Sy, Hcz. unfold reshape3.
    rewrite fix_unknown_dimension_known by lia.
    rewrite Hflat, !Z.mul_0_r. change (Z.of_nat 0 =? 0) with true.
    cbn [bind]. f_equal. f_equal. rewrite Z.mul_0_r.
    change (Z.to_nat 0) with 0%nat.
    rewrite chunks_zero_width, map_repeat, chunks_zero_width. reflexivity.
Qed.

Lemma arr_short0_extent : grid_extent arr_short0 1 1.
Proof.
  exists [0; 1; 1], [0; 0; 1].
  split; [prove_holds_ints|]. split; [prove_holds_ints|].
  split; [prove_is_max|]. split; [prove_is_max|]. lia.
Qed.

Lemma xyzc_without_fill_needs_every_row_witness :
  well_shaped arr_short /\ grid_extent arr_short 1 1 /\
  shape0 arr_short <> (1 + 1) * (1 + 1) /\ 3 < a_ncols arr_short /\
  _xyzc_to_arr arr_short None = Raise (ValueError "cannot reshape array") /\
  a_ncols arr_short0 = 3 /\
  _xyzc_to_arr arr_short0 None =
    Ok (mk_ndarray3 float32 (2, 2, 0) [[[]; []]; [[]; []]]).
Proof.
  assert (Hws : well_shaped arr_short) by prove_well_shaped.
  assert (Hws0 : well_shaped arr_short0) by prove_well_shaped.
  assert (HE : (1 + 1) * (1 + 1) <= INT64_MAX) by (vm_compute; discriminate).
  assert (Hn : shape0 arr_short <> (1 + 1) * (1 + 1)) by (vm_compute; discriminate).
  assert (Hn0 : shape0 arr_short0 <> (1 + 1) * (1 + 1))
    by (vm_compute; discriminate).
  assert (Hc : 3 < a_ncols arr_short) by (simpl; lia).
  split; [exact Hws|]. split; [exact arr_short_extent|].
  split; [exact Hn|]. split; [exact Hc|]. split.
  - exact (proj1 (xyzc_without_fill_needs_every_row arr_short 1 1 Hws
                    arr_short_extent HE Hn) Hc).
  - split; [reflexivity|].
    exact (proj2 (xyzc_without_fill_needs_every_row arr_short0 1 1 Hws0
                    arr_short0_extent HE Hn0) eq_refl).
Defined.

(** ** Reading one acquisition: the cases *)

(** X3: an acquisition whose byte range is empty (its end offset is its
    start offset) gives no raster: with or without a fill value, reading
    it raises the [ValueError] of the maximum of an empty array. *)
Theorem empty_range_raises (stem : string -> string) (path : string)
    (fill_missing : option Z) (mm : list byte) (root : MCDPublic)
    (acq : Acquisition) :
  supported acq = true ->
  0 <= DataStartOffset acq <= Z.of_nat (length mm) ->
  DataEndOffset acq = DataStartOffset acq ->
  read_acquisition stem path fill_missing mm root acq =
  Raise (ValueError
    "zero-size array to reduction operation maximum which has no identity").
Proof.
  intros Hsup Hstart Hend.
  assert (Hw : 0 < record_width root acq) by (unfold record_width; lia).
  assert (Hrec : read_records mm acq (record_width root acq) =
                 Ok (mk_ndarray2 float32 (record_width root acq) [])).
  { rewrite read_records_spec by lia. cbv zeta.
    rewrite Hend, Z.sub_diag. reflexivity. }
  unfold read_acquisition. rewrite <- negb_andb. fold (supported acq).
  rewrite Hsup. cbn [negb]. fold (record_width root acq). rewrite Hrec.
  cbn [bind]. destruct fill_missing; reflexivity.
Qed.

Lemma empty_range_raises_witness :
  supported (mk_Acquisition "1" "Float" "4" 5 5) = true /\
  0 <= DataStartOffset (mk_Acquisition "1" "Float" "4" 5 5)
    <= Z.of_nat (length mm_2x2) /\
  read_acquisition (fun s => s) "a.mcd" (Some d_minus1) mm_2x2 root_2x2
    (mk_Acquisition "1" "Float" "4" 5 5) =
  Raise (ValueError
    "zero-size array to reduction operation maximum which has no identity").
Proof.
  assert (H1 : supported (mk_Acquisition "1" "Float" "4" 5 5) = true)
    by reflexivity.
  assert (H2 : 0 <= DataStartOffset (mk_Acquisition "1" "Float" "4" 5 5)
               <= Z.of_nat (length mm_2x2))
    by (vm_compute; split; discriminate).
  exact (conj H1 (conj H2 (empty_range_raises (fun s => s) "a.mcd"
    (Some d_minus1) mm_2x2 root_2x2 (mk_Acquisition "1" "Float" "4" 5 5)
    H1 H2 eq_refl))).
Defined.




(** X5: when the rows are as many as the grid has cells, a fill value
    changes nothing: the raster is the one computed without fill value,
    still [float32], and it is yielded even if it holds NaNs, which stay
    where they are. *)
Theorem fill_value_unused_on_complete_streams (stem : string -> string)
    (path : string) (mm : list byte) (root : MCDPublic) (acq : Acquisition)
    (arr : ndarray2) (maxX maxY : Z) (fill : Z) :
  supported acq = true ->
  read_records mm acq (record_width root acq) = Ok arr ->
  grid_extent arr maxX maxY ->
  shape0 arr = (maxX + 1) * (maxY + 1) ->
  shape0 arr <= INT64_MAX ->
  exists img da,
    _xyzc_to_arr arr (Some fill) = Ok img /\
    _xyzc_to_arr arr None = Ok img /\
    i_dtype img = float32 /\
    concat (i_data img) = cells_of (a_rows arr) /\
    read_acquisition stem path (Some fill) mm root acq = Ok da /\
    da_values da = img.
Proof.
  intros Hsup Hrec Hext Hn Hfit.
  pose proof Hext as (xs & ys & _ & _ & _ & _ & Hx0 & Hy0).
  assert (Hws : well_shaped arr)
    by (apply (records_well_shaped mm root acq arr Hrec); lia).
  assert (Hw : 3 <= record_width root acq) by (unfold record_width; lia).
  destruct (read_records_shape _ _ _ _ Hw Hrec) as (Hdt & _ & _).
  pose proof (xyzc_full arr (Some fill) maxX maxY Hws Hext Hn) as Hfill.
  pose proof (xyzc_full arr None maxX maxY Hws Hext Hn) as Hnone.
  eexists. eexists. split; [exact Hfill|]. split; [exact Hnone|].
  split; [exact Hdt|]. split.
  - cbn [i_data]. apply concat_chunks. unfold cells_of.
    rewrite length_map. unfold shape0 in Hn. nia.
  - split.
    + apply (read_acquisition_reshaped stem path mm root acq Hsup arr Hrec
               (Some fill) _ I Hfill).
    + reflexivity.
Qed.

Lemma arr_nan_extent : grid_extent arr_nan 1 1.
Proof.
  exists [0; 1; 0; 1], [0; 0; 1; 1].
  split; [prove_holds_ints|]. split; [prove_holds_ints|].
  split; [prove_is_max|]. split; [prove_is_max|]. lia.
Qed.

Lemma fill_value_unused_on_complete_streams_witness :
  supported acq_nan = true /\
  read_records mm_nan acq_nan (record_width root_nan acq_nan) = Ok arr_nan /\
  grid_extent arr_nan 1 1 /\ has_nan arr_nan = true /\
  exists img da,
    _xyzc_to_arr arr_nan (Some d_minus1) = Ok img /\
    concat (i_data img) = [[f10]; [f20]; [f30]; [fnan]] /\
    read_acquisition (fun s => s) "a.mcd" (Some d_minus1) mm_nan root_nan
      acq_nan = Ok da.
Proof.
  assert (Hsup : supported acq_nan = true) by reflexivity.
  assert (Hrec : read_records mm_nan acq_nan
                   (record_width root_nan acq_nan) = Ok arr_nan)
    by (vm_compute; reflexivity).
  assert (Hn : shape0 arr_nan = (1 + 1) * (1 + 1)) by reflexivity.
  assert (Hfit : shape0 arr_nan <= INT64_MAX) by (vm_compute; discriminate).
  destruct (fill_value_unused_on_complete_streams (fun s => s) "a.mcd"
              mm_nan root_nan acq_nan arr_nan 1 1 d_minus1 Hsup Hrec
              arr_nan_extent Hn Hfit)
    as (img & da & Hfill & _ & _ & Hcells & Hda & _).
  split; [exact Hsup|]. split; [exact Hrec|].
  split; [exact arr_nan_extent|]. split; [reflexivity|].
  exists img, da. split; [exact Hfill|]. split; [exact Hcells|]. exact Hda.
Defined.

(** ** The summary of a raster of labelled channels *)








(** ** Promotion to [float64] *)

Lemma f64_fields (s : bool) (e m : Z) :
  0 <= e < 2 ^ 11 -> 0 <= m < 2 ^ 52 ->
  let b := (if s then 2 ^ 63 else 0) + e * 2 ^ 52 + m in
  expo 52 11 b = e /\ mant 52 b = m /\ sign 52 11 b = s.
Proof.
  intros He Hm b.
  assert (Hb : b = ((if s then 2 ^ 11 else 0) + e) * 2 ^ 52 + m)
    by (unfold b; destruct s; lia).
  assert (Hq : b / 2 ^ 52 = (if s then 2 ^ 11 else 0) + e).
  { rewrite Hb, Z.div_add_l by lia. rewrite (Z.div_small m) by lia. lia. }
  repeat split.
  - unfold expo. rewrite Z.land_ones, Z.shiftr_div_pow2 by lia.
    rewrite Hq. destruct s.
    + rewrite <- (Z.mul_1_l (2 ^ 11)) at 1.
      rewrite Z.add_comm, Z.mod_add by lia. apply Z.mod_small. lia.
    + apply Z.mod_small. lia.
  - unfold mant. rewrite Z.land_ones by lia.
    rewrite Hb, Z.add_comm, Z.mod_add by lia. apply Z.mod_small. lia.
  - unfold sign. change (52 + 11) with 63.
    assert (H63 : b / 2 ^ 63 = if s then 1 else 0).
    { change (2 ^ 63) with (2 ^ 52 * 2 ^ 11).
      rewrite <- Z.div_div by lia. rewrite Hq. destruct s.
      - rewrite <- (Z.mul_1_l (2 ^ 11)) at 1.
        rewrite Z.div_add_l by lia. rewrite Z.div_small by lia. lia.
      - apply Z.div_small. lia. }
    destruct s.
    + apply Z.testbit_true; [lia|]. rewrite H63. reflexivity.
    + apply Z.testbit_false; [lia|]. rewrite H63. reflexivity.
Qed.

Lemma f32_fields (b : Z) :
  0 <= expo 23 8 b < 2 ^ 8 /\ 0 <= mant 23 b < 2 ^ 23.
Proof.
  unfold expo, mant. rewrite !Z.land_ones by lia.
  split; apply Z.mod_pos_bound; lia.
Qed.

Lemma Qpower_shift (n j x : Z) :
  0 <= j ->
  (inject_Z (n * 2 ^ j) * (2 # 1) ^ (x - j) == inject_Z n * (2 # 1) ^ x)%Q.
Proof.
  intros Hj. unfold Z.sub. rewrite Qpower_plus by discriminate.
  rewrite Qmult_assoc, (Qmult_comm (inject_Z (n * 2 ^ j))), <- Qmult_assoc.
  rewrite (pow2_ratio n j Hj). apply Qmult_comm.
Qed.

Lemma signed_shift (s : bool) (n j x : Z) :
  0 <= j ->
  (inject_Z (if s then - (n * 2 ^ j) else n * 2 ^ j) * (2 # 1) ^ (x - j)
   == inject_Z (if s then - n else n) * (2 # 1) ^ x)%Q.
Proof.
  intros Hj. destruct s.
  - rewrite <- Z.mul_opp_l. now apply Qpower_shift.
  - now apply Qpower_shift.
Qed.

Lemma widening_exact (b : Z) :
  fval_eq (f64_value (f32_to_f64 b)) (f32_value b).
Proof.
  destruct (f32_fields b) as [He Hm].
  unfold f32_to_f64, f32_value, f64_value, ieee_value.
  change (Z.ones 8) with 255. change (Z.ones 11) with 2047.
  change (bias 8) with 127. change (bias 11) with 1023.
  set (s := sign 23 8 b) in *. set (e := expo 23 8 b) in *.
  set (m := mant 23 b) in *.
  clearbody s e m.
  destruct (Z.eqb_spec e 255) as [E255|N255].
  - destruct (f64_fields s 2047 (m * 2 ^ 29) ltac:(lia) ltac:(lia))
      as (-> & -> & ->).
    cbn [Z.eqb]. change (2047 =? 2047) with true. cbv iota.
    destruct (Z.eqb_spec m 0) as [->|Hmz].
    + reflexivity.
    + destruct (Z.eqb_spec (m * 2 ^ 29) 0); [lia|]. exact I.
  - destruct (Z.eqb_spec e 0) as [E0|N0].
    + destruct (Z.eqb_spec m 0) as [M0|Hmz].
      * subst e m.
        destruct (f64_fields s 0 0 ltac:(lia) ltac:(lia)) as (H1 & H2 & H3).
        rewrite !Z.mul_0_l, !Z.add_0_r in H1, H2, H3.
        rewrite H1, H2, H3. cbn [Z.eqb]. cbv iota.
        unfold fval_eq.
        destruct s; change (inject_Z (- 0)) with 0%Q;
          change (inject_Z 0) with 0%Q; rewrite !Qmult_0_l; reflexivity.
      * destruct (Z.log2_spec m ltac:(lia)) as [Hlo Hhi].
        set (k := Z.log2 m) in *.
        assert (Hk0 : 0 <= k) by apply Z.log2_nonneg.
        assert (Hk : k <= 22).
        { destruct (Z.le_gt_cases k 22) as [|Hgt]; [assumption|].
          assert (2 ^ 23 <= 2 ^ k) by (apply Z.pow_le_mono_r; lia). lia. }
        assert (Hsucc : 2 ^ Z.succ k = 2 * 2 ^ k) by (apply Z.pow_succ_r; lia).
        assert (Hsplit : 2 ^ 52 = 2 ^ k * 2 ^ (52 - k)).
        { rewrite <- Z.pow_add_r by lia. f_equal. lia. }
        assert (Hp : 0 < 2 ^ (52 - k)) by (apply Z.pow_pos_nonneg; lia).
        assert (HM : 0 <= (m - 2 ^ k) * 2 ^ (52 - k) < 2 ^ 52) by nia.
        destruct (f64_fields s (k - 149 + 1023) ((m - 2 ^ k) * 2 ^ (52 - k))
                    ltac:(lia) HM) as (-> & -> & ->).
        destruct (Z.eqb_spec (k - 149 + 1023) 2047); [lia|].
        destruct (Z.eqb_spec (k - 149 + 1023) 0); [lia|].
        unfold fval_eq.
        replace (2 ^ 52 + (m - 2 ^ k) * 2 ^ (52 - k)) with (m * 2 ^ (52 - k))
          by lia.
        replace (Z.max (k - 149 + 1023) 1 - 1023 - 52)
          with (Z.max e 1 - 127 - 23 - (52 - k)) by lia.
        apply signed_shift. lia.
    + destruct (f64_fields s (e - 127 + 1023) (m * 2 ^ 29)
                  ltac:(lia) ltac:(lia)) as (-> & -> & ->).
      destruct (Z.eqb_spec (e - 127 + 1023) 2047); [lia|].
      destruct (Z.eqb_spec (e - 127 + 1023) 0); [lia|].
      unfold fval_eq.
      replace (2 ^ 52 + m * 2 ^ 29) with ((2 ^ 23 + m) * 2 ^ 29) by lia.
      replace (Z.max (e - 127 + 1023) 1 - 1023 - 52)
        with (Z.max e 1 - 127 - 23 - 29) by lia.
      apply signed_shift. lia.
Qed.

Lemma fval_eq_refl (a : fval) : fval_eq a a.
Proof. destruct a; simpl; [exact I | reflexivity | reflexivity]. Qed.

Lemma Forall2_same {A : Type} (R : A -> A -> Prop) (l : list A) :
  (forall a, R a a) -> Forall2 R l l.
Proof. intros HR. induction l; constructor; auto. Qed.

Lemma Forall2_map_left {A B : Type} (R : B -> A -> Prop) (f : A -> B)
    (l : list A) :
  (forall a, R (f a) a) -> Forall2 R (map f l) l.
Proof. intros HR. induction l; constructor; auto. Qed.

Lemma Forall2_skipn_both {A B : Type} (R : A -> B -> Prop) (n : nat)
    (l : list A) (l' : list B) :
  Forall2 R l l' -> Forall2 R (skipn n l) (skipn n l').
Proof.
  intros H. revert n. induction H as [|a b l l' Hab Hl IH]; intros [|n];
    cbn [skipn].
  - constructor.
  - constructor.
  - now constructor.
  - apply IH.
Qed.

Lemma promote_values (arr : ndarray2) :
  Forall2 (Forall2 (same_value (a_dtype arr))) (promote arr) (a_rows arr).
Proof.
  unfold promote, same_value. destruct (a_dtype arr); cbn [value_of].
  - apply Forall2_map_left. intros r. apply Forall2_map_left.
    exact widening_exact.
  - apply Forall2_same. intros r. apply Forall2_same. intros v.
    apply fval_eq_refl.
Qed.

(** X6: padding keeps what was recorded.  When rows are missing and a
    fill value is given, the raster is [float64]; read in row-major order,
    its first cells are the channel values of the input rows, each
    standing for exactly the value recorded (the same real number, the
    same infinity, a NaN for a NaN), and the cells after them are made of
    the fill value. *)
Theorem padding_keeps_recorded_values (arr : ndarray2) (fill : Z)
    (maxX maxY : Z) :
  well_shaped arr -> grid_extent arr maxX maxY ->
  shape0 arr < (maxX + 1) * (maxY + 1) <= INT64_MAX ->
  exists img,
    _xyzc_to_arr arr (Some fill) = Ok img /\ i_dtype img = float64 /\
    Forall2 (Forall2 (same_value (a_dtype arr)))
      (firstn (length (a_rows arr)) (concat (i_data img)))
      (cells_of (a_rows arr)) /\
    skipn (length (a_rows arr)) (concat (i_data img)) =
      repeat (repeat fill (Z.to_nat (a_ncols arr - 3)))
             (Z.to_nat ((maxX + 1) * (maxY + 1) - shape0 arr)).
Proof.
  intros Hws Hext Hn.
  pose proof Hext as (xs & ys & _ & _ & _ & _ & Hx0 & Hy0).
  eexists. split; [apply (xyzc_padded arr fill maxX maxY); assumption|].
  split; [reflexivity|]. cbn [i_data].
  assert (Hcl : length (cells_of (promote arr)) = length (a_rows arr))
    by (unfold cells_of; now rewrite length_map, promote_length).
  rewrite concat_chunks.
  - split.
    + rewrite firstn_app_len by exact Hcl.
      clear Hcl. pose proof (promote_values arr) as Hv.
      unfold cells_of. induction Hv as [|r r' rows rows' Hr _ IH];
        cbn [map]; constructor; [|exact IH].
      now apply Forall2_skipn_both.
    + now rewrite skipn_app_len by exact Hcl.
  - rewrite length_app, Hcl, repeat_length. unfold shape0 in *. nia.
Qed.

Lemma padding_keeps_recorded_values_witness :
  well_shaped arr_short /\ grid_extent arr_short 1 1 /\
  shape0 arr_short < (1 + 1) * (1 + 1) <= INT64_MAX /\
  exists img,
    _xyzc_to_arr arr_short (Some d_minus1) = Ok img /\
    i_dtype img = float64 /\
    Forall2 (Forall2 (same_value float32))
      (firstn 3 (concat (i_data img))) [[f10]; [f20]; [f40]] /\
    skipn 3 (concat (i_data img)) = [[d_minus1]].
Proof.
  assert (Hws : well_shaped arr_short) by prove_well_shaped.
  assert (Hn : shape0 arr_short < (1 + 1) * (1 + 1) <= INT64_MAX)
    by (vm_compute; split; [reflexivity | discriminate]).
  destruct (padding_keeps_recorded_values arr_short d_minus1 1 1 Hws
              arr_short_extent Hn) as (img & Himg & Hdt & Hvals & Hpad).
  exact (conj Hws (conj arr_short_extent (conj Hn
           (ex_intro _ img (conj Himg (conj Hdt (conj Hvals Hpad))))))).
Defined.
